(** * Order orchestration and cross-channel messaging bridge

    A shallow embedding of the store ([db.js]), the Discord side
    ([index.js]) and the web side ([server.js]) of the shop, with the
    properties of the order life cycle, the verification links and the
    chat bridge stated over it. *)

From Stdlib Require Import ZArith Ascii String.
From stdpp Require Import base numbers strings list gmap pretty.

(** ** JavaScript values the code branches on *)

(** Truthiness of a value that is a string or absent ([undefined]/[null]):
    the empty string is falsy, like [undefined]. *)
Definition truthy (v : option string) : bool :=
  match v with
  | Some s => negb (bool_decide (s = ""))
  | None => false
  end.

(** [a || 'literal'] on such values. *)
Definition or_else (a : option string) (b : string) : string :=
  if truthy a then default b a else b.

(** [s.slice(0, n)] and [s.slice(-n)], on the characters of the model's
    strings. *)
Definition slice_first (n : nat) (s : string) : string :=
  String.substring 0 n s.

Definition slice_last (n : nat) (s : string) : string :=
  String.substring (String.length s - n) n s.

(** ** db.js: the tables and the queries *)

Inductive Author := user | staff | system.

#[global] Instance Author_eq_dec : EqDecision Author.
Proof. solve_decision. Defined.

(** One transcript entry, [{ author, content, timestamp }]; the timestamp
    is the clock reading that [new Date().toISOString()] prints. *)
Record Message := {
  author : Author;
  content : string;
  timestamp : Z;
}.

#[global] Instance Message_eq_dec : EqDecision Message.
Proof. solve_decision. Defined.

(** A row of [products]; [price] is the NUMERIC(10, 2) value in
    hundredths, [stock = -1] means unlimited. *)
Module Product.
Record t := mk {
  id : string;
  name : string;
  price : Z;
  description : option string;
  emoji : option string;
  stock : Z;
}.
End Product.

Module Account.
Record t := mk {
  id : string;
  username : option string;
  discriminator : option string;
  avatar : option string;
  verifiedAt : option Z;
}.
End Account.

(** A row of [orders]. The columns that an INSERT of the code can leave
    NULL are options. [messages] is the JSONB column: SQL NULL, or the JSON
    array of the transcript. [createOrder] stores an array, [migrate.js]
    stores NULL for an order that has no [messages]. *)
Module Order.
Record t := mk {
  id : string;
  userId : string;
  productId : option string;
  productName : option string;
  status : string;
  createdAt : Z;
  receiptUrl : option string;
  ticketChannelId : option string;
  messages : option (list Message);
}.
End Order.

(** The [fixed_panel] entry of [app_config]. *)
Record PanelConfig := {
  panelMessageId : option string;
  panelChannelId : option string;
}.

Record Database := {
  products : list Product.t;
  accounts : list Account.t;
  orders : list Order.t;
  audit_logs : list string;
  fixed_panel : option PanelConfig;
}.

Definition set_products (f : list Product.t → list Product.t) (d : Database) : Database :=
  {| products := f (products d); accounts := accounts d; orders := orders d;
     audit_logs := audit_logs d; fixed_panel := fixed_panel d |}.

Definition set_orders (f : list Order.t → list Order.t) (d : Database) : Database :=
  {| products := products d; accounts := accounts d; orders := f (orders d);
     audit_logs := audit_logs d; fixed_panel := fixed_panel d |}.

Definition set_audit_logs (f : list string → list string) (d : Database) : Database :=
  {| products := products d; accounts := accounts d; orders := orders d;
     audit_logs := f (audit_logs d); fixed_panel := fixed_panel d |}.

Definition set_fixed_panel (c : option PanelConfig) (d : Database) : Database :=
  {| products := products d; accounts := accounts d; orders := orders d;
     audit_logs := audit_logs d; fixed_panel := c |}.

(** [UPDATE t SET ... WHERE cond]: every row that satisfies the condition
    is rewritten, the others are kept, the order of rows is kept. *)
Definition sql_update {A} (cond : A → bool) (upd : A → A) (rows : list A) : list A :=
  (λ r, if cond r then upd r else r) <$> rows.

(** [SELECT * FROM t WHERE cond] followed by
    [rows.length > 0 ? rows[0] : null]. *)
Definition sql_select_first {A} (cond : A → bool) (rows : list A) : option A :=
  head (filter (λ r, cond r = true) rows).

(** [SELECT * FROM products WHERE id = $1] *)
Definition getProductById (productId : string) (d : Database) : option Product.t :=
  sql_select_first (λ p, bool_decide (Product.id p = productId)) (products d).

Definition decrement_stock (p : Product.t) : Product.t :=
  Product.mk (Product.id p) (Product.name p) (Product.price p)
    (Product.description p) (Product.emoji p) (Product.stock p - 1)%Z.

(** [UPDATE products SET stock = stock - 1 WHERE id = $1 AND stock > 0] *)
Definition decreaseProductStock (productId : string) (d : Database) : Database :=
  set_products
    (sql_update
       (λ p, bool_decide (Product.id p = productId) && (0 <? Product.stock p)%Z)
       decrement_stock)
    d.

(** [SELECT * FROM orders WHERE id = $1 AND "userId" = $2] *)
Definition getOrderById (orderId userId : string) (d : Database) : option Order.t :=
  sql_select_first
    (λ o, bool_decide (Order.id o = orderId) && bool_decide (Order.userId o = userId))
    (orders d).

(** The optional third argument of [updateOrderStatus]. *)
Record ExtraData := {
  extra_receiptUrl : option string;
  extra_ticketChannelId : option string;
}.

Definition no_extra : ExtraData :=
  {| extra_receiptUrl := None; extra_ticketChannelId := None |}.

(** The SET list that [updateOrderStatus] builds: [status] always, the two
    optional columns when the field of [extraData] is truthy. *)
Definition write_status (status : string) (extraData : ExtraData) (o : Order.t) : Order.t :=
  Order.mk (Order.id o) (Order.userId o) (Order.productId o) (Order.productName o)
    status
    (Order.createdAt o)
    (if truthy (extra_receiptUrl extraData)
     then extra_receiptUrl extraData else Order.receiptUrl o)
    (if truthy (extra_ticketChannelId extraData)
     then extra_ticketChannelId extraData else Order.ticketChannelId o)
    (Order.messages o).

(** [UPDATE orders SET <fields> WHERE id = $1 RETURNING *], with
    [rows[0]] returned (absent when no row matched). *)
Definition updateOrderStatus (orderId status : string) (extraData : ExtraData)
    (d : Database) : option Order.t * Database :=
  let d' := set_orders
              (sql_update (λ o, bool_decide (Order.id o = orderId))
                 (write_status status extraData)) d in
  (sql_select_first (λ o, bool_decide (Order.id o = orderId)) (orders d'), d').

(** [messages || $2::jsonb] with a JSON object on the right: the operator
    is strict, so NULL stays NULL; an array gets the object as its last
    element. *)
Definition jsonb_concat (col : option (list Message)) (m : Message) : option (list Message) :=
  match col with
  | None => None
  | Some l => Some (l ++ [m])
  end.

Definition append_message (m : Message) (o : Order.t) : Order.t :=
  Order.mk (Order.id o) (Order.userId o) (Order.productId o) (Order.productName o)
    (Order.status o) (Order.createdAt o) (Order.receiptUrl o) (Order.ticketChannelId o)
    (jsonb_concat (Order.messages o) m).

(** [UPDATE orders SET messages = messages || $2::jsonb WHERE id = $1] *)
Definition addMessageToOrder (orderId : string) (message : Message) (d : Database) : Database :=
  set_orders
    (sql_update (λ o, bool_decide (Order.id o = orderId)) (append_message message)) d.

(** [INSERT INTO audit_logs (message) VALUES ($1)] *)
Definition addAuditLog (message : string) (d : Database) : Database :=
  set_audit_logs (λ l, l ++ [message]) d.

(** What the client reads as the transcript of a row: [order.messages || []]. *)
Definition transcript (o : Order.t) : list Message :=
  default [] (Order.messages o).

(** ** The process: its state, the outside world, and effects *)

(** What a rejected promise or a thrown exception carries. *)
Inductive JsError :=
  | TypeError (what : string)
  | ReferenceError (ident : string)
  | DiscordAPIError (what : string)
  | DatabaseError (what : string).

(** The [context] of a verification token, in the two shapes the code
    builds: [{ type: 'ticket', channelId, userId, productId, productName? }]
    and [{ type: 'site', orderId, userId, productId?, productName? }]. *)
Inductive Context :=
  | TicketCtx (channelId userId productId : string) (productName : option string)
  | SiteCtx (orderId userId : string) (productId productName : option string).

(** An entry of the [verificationTokens] map of server.js: [action] is
    absent on a proof-review token and ['deliver'] on a delivery token;
    [details] is what the page shows. These are all the fields an entry
    has. *)
Record Token := {
  tok_action : option string;
  tok_context : Context;
  tok_details : list (string * string);
}.

(** A callback handed to [setTimeout], waiting for its due time. *)
Inductive TimerAction :=
  | DeleteToken (verificationId : string)
  | DeleteChannel (channelId reason : string).

(** Calls made on the Discord API that changed something there. *)
Inductive DiscordCall :=
  | ChannelSend (channelId text : string)
  | ChannelDelete (channelId reason : string)
  | ChannelCreate (name topic : string) (viewers : list string)
  | DirectMessage (userId text : string)
  | PanelEdit.

(** [socket.to(room).emit('new_message_from_server', m)] excludes the
    sending socket, [io.to(room).emit(...)] excludes nobody. *)
Record Emit := {
  room : string;
  except : option string;
  payload : Message;
}.

Inductive LogLine :=
  | ConsoleLog (line : string)
  | ConsoleError (line : string).

Record World := {
  db : Database;
  verificationTokens : gmap string Token;
  timers : list (Z * TimerAction);
  now : Z;
  entropy : nat;
  discord : list DiscordCall;
  emitted : list Emit;
  console : list LogLine;
}.

Definition with_db (f : Database → Database) (w : World) : World :=
  {| db := f (db w); verificationTokens := verificationTokens w; timers := timers w;
     now := now w; entropy := entropy w; discord := discord w; emitted := emitted w;
     console := console w |}.

Definition with_tokens (f : gmap string Token → gmap string Token) (w : World) : World :=
  {| db := db w; verificationTokens := f (verificationTokens w); timers := timers w;
     now := now w; entropy := entropy w; discord := discord w; emitted := emitted w;
     console := console w |}.

Definition with_timers (f : list (Z * TimerAction) → list (Z * TimerAction)) (w : World) : World :=
  {| db := db w; verificationTokens := verificationTokens w; timers := f (timers w);
     now := now w; entropy := entropy w; discord := discord w; emitted := emitted w;
     console := console w |}.

Definition with_now (t : Z) (w : World) : World :=
  {| db := db w; verificationTokens := verificationTokens w; timers := timers w;
     now := t; entropy := entropy w; discord := discord w; emitted := emitted w;
     console := console w |}.

Definition with_entropy (n : nat) (w : World) : World :=
  {| db := db w; verificationTokens := verificationTokens w; timers := timers w;
     now := now w; entropy := n; discord := discord w; emitted := emitted w;
     console := console w |}.

Definition with_discord (f : list DiscordCall → list DiscordCall) (w : World) : World :=
  {| db := db w; verificationTokens := verificationTokens w; timers := timers w;
     now := now w; entropy := entropy w; discord := f (discord w); emitted := emitted w;
     console := console w |}.

Definition with_emitted (f : list Emit → list Emit) (w : World) : World :=
  {| db := db w; verificationTokens := verificationTokens w; timers := timers w;
     now := now w; entropy := entropy w; discord := discord w; emitted := f (emitted w);
     console := console w |}.

Definition with_console (f : list LogLine → list LogLine) (w : World) : World :=
  {| db := db w; verificationTokens := verificationTokens w; timers := timers w;
     now := now w; entropy := entropy w; discord := discord w; emitted := emitted w;
     console := f (console w) |}.

(** The result of running a piece of asynchronous code to its end: the
    value it resolved with, or the error it rejected with. Effects done
    before a rejection stay done. *)
Inductive Res (A : Type) :=
  | Ok (a : A)
  | Throw (e : JsError).
Arguments Ok {A} a.
Arguments Throw {A} e.

Definition M (A : Type) : Type := World → Res A * World.

Definition ret {A} (a : A) : M A := λ w, (Ok a, w).

Definition throw {A} (e : JsError) : M A := λ w, (Throw e, w).

Definition bind {A B} (c : M A) (k : A → M B) : M B :=
  λ w, match c w with
       | (Ok a, w') => k a w'
       | (Throw e, w') => (Throw e, w')
       end.

(** [try { c } catch (error) { h(error) }] and [p.catch(h)]. *)
Definition try_catch {A} (c : M A) (h : JsError → M A) : M A :=
  λ w, match c w with
       | (Ok a, w') => (Ok a, w')
       | (Throw e, w') => h e w'
       end.

Definition effect (f : World → World) : M unit := λ w, (Ok tt, f w).

Definition read {A} (f : World → A) : M A := λ w, (Ok (f w), w).

#[global] Instance M_ret : MRet M := @ret.
#[global] Instance M_bind : MBind M := λ A B k c, bind c k.

Definition console_error (line : string) : M unit :=
  effect (with_console (λ l, l ++ [ConsoleError line])).

Definition console_log (line : string) : M unit :=
  effect (with_console (λ l, l ++ [ConsoleLog line])).

(** [setTimeout(callback, delay)] *)
Definition setTimeout (a : TimerAction) (delay : Z) : M unit :=
  λ w, (Ok tt, with_timers (λ l, l ++ [((now w + delay)%Z, a)]) w).

(** A Discord user and a guild channel, as far as the code reads them. *)
Record DUser := {
  user_id : string;
  user_username : string;
  user_tag : string;
}.

Record Channel := {
  channel_id : string;
  channel_name : string;
  channel_topic : option string;
}.

(** How the attempt to refresh the fixed shopping panel ends once the
    configuration names a message and a channel. *)
Inductive PanelOutcome :=
  | PanelEdited (channelName : string)
  | PanelSkipped
  | PanelUnknown
  | PanelFailed.

(** The environment of the process: the configuration read from
    [process.env], and how the Discord API answers. A call that answers
    [None] or [false] is a rejected promise. *)
Record Env := {
  GUILD_ID : string;
  OWNER_ID : string;
  ADMIN_ROLE_ID : string;
  SITE_URL : string;
  guilds_fetch : string → bool;
  users_fetch : string → option DUser;
  user_send : string → bool;
  channels_fetch : option string → option Channel;
  channel_send : string → bool;
  channel_delete : string → bool;
  channels_create : string → option string;
  panel_refresh : PanelOutcome;
  randomBytes : nat → string;
}.

(** ** index.js: the bot *)

(** [topic.match(/User: (\d+)/)]: the digits after the first occurrence of
    the prefix that is followed by a digit. *)
Definition is_digit (c : ascii) : bool :=
  (48 <=? nat_of_ascii c) && (nat_of_ascii c <=? 57).

Fixpoint take_digits (s : string) : string :=
  match s with
  | String c r => if is_digit c then String c (take_digits r) else EmptyString
  | EmptyString => EmptyString
  end.

Fixpoint strip_prefix (p s : string) : option string :=
  match p, s with
  | EmptyString, _ => Some s
  | String a p', String b s' => if bool_decide (a = b) then strip_prefix p' s' else None
  | String _ _, EmptyString => None
  end.

Definition digits_here (prefix s : string) : option string :=
  match strip_prefix prefix s with
  | Some rest =>
      match take_digits rest with
      | EmptyString => None
      | d => Some d
      end
  | None => None
  end.

Fixpoint match_digits_after (prefix s : string) : option string :=
  match digits_here prefix s with
  | Some d => Some d
  | None =>
      match s with
      | String _ r => match_digits_after prefix r
      | EmptyString => None
      end
  end.

(** What a handler resolves with and the page shows. *)
Record ActionResult := {
  success : bool;
  message : string;
}.

Section Bot.
Context (env : Env).

Definition client_guilds_fetch : M unit :=
  if guilds_fetch env (GUILD_ID env) then mret tt
  else throw (DiscordAPIError "guilds.fetch").

Definition client_users_fetch (id : string) : M DUser :=
  match users_fetch env id with
  | Some u => mret u
  | None => throw (DiscordAPIError "users.fetch")
  end.

Definition user_send_dm (u : DUser) (text : string) : M unit :=
  if user_send env (user_id u)
  then effect (with_discord (λ l, l ++ [DirectMessage (user_id u) text]))
  else throw (DiscordAPIError "user.send").

Definition client_channels_fetch (id : option string) : M Channel :=
  match channels_fetch env id with
  | Some c => mret c
  | None => throw (DiscordAPIError "channels.fetch")
  end.

Definition channel_send_text (c : Channel) (text : string) : M unit :=
  if channel_send env (channel_id c)
  then effect (with_discord (λ l, l ++ [ChannelSend (channel_id c) text]))
  else throw (DiscordAPIError "channel.send").

Definition channel_delete_now (c : Channel) (reason : string) : M unit :=
  if channel_delete env (channel_id c)
  then effect (with_discord (λ l, l ++ [ChannelDelete (channel_id c) reason]))
  else throw (DiscordAPIError "channel.delete").

(** [guild.channels.create({ name, topic, permissionOverwrites })]: the
    guild is denied the view, the listed principals are allowed. *)
Definition guild_channels_create (name topic : string) (viewers : list string) : M Channel :=
  match channels_create env name with
  | Some id =>
      _ ← effect (with_discord (λ l, l ++ [ChannelCreate name topic viewers]));
      mret {| channel_id := id; channel_name := name; channel_topic := Some topic |}
  | None => throw (DiscordAPIError "channels.create")
  end.

(** [crypto.randomBytes(16).toString('hex')] *)
Definition random_hex : M string :=
  λ w, (Ok (randomBytes env (entropy w)), with_entropy (S (entropy w)) w).

(** [logAuditEvent]: a console line and a row of [audit_logs];
    [addAuditLog] swallows its own failure. *)
Definition logAuditEvent (message : string) : M unit :=
  _ ← console_log ("[AUDITORIA] " +:+ message);
  effect (with_db (addAuditLog message)).

(** [updateFixedShoppingPanel] *)
Definition updateFixedShoppingPanel : M unit :=
  panelConfig ← read (λ w, fixed_panel (db w));
  match panelConfig with
  | None => throw (TypeError "Cannot read properties of null (reading 'panelMessageId')")
  | Some cfg =>
      if truthy (panelMessageId cfg) && truthy (panelChannelId cfg) then
        match panel_refresh env with
        | PanelEdited channelName =>
            _ ← effect (with_discord (λ l, l ++ [PanelEdit]));
            logAuditEvent ("Painel de compras fixo atualizado no canal " +:+ channelName +:+ ".")
        | PanelSkipped => mret tt
        | PanelUnknown =>
            _ ← console_log "Painel de compras antigo não encontrado (mensagem ou canal deletado). Limpando configuração.";
            effect (with_db (set_fixed_panel
                      (Some {| panelMessageId := None; panelChannelId := None |})))
        | PanelFailed =>
            console_error "Erro ao tentar atualizar o painel de compras fixo:"
        end
      else mret tt
  end.

Definition TOKEN_TTL : Z := 3600000.

Definition verify_url (verificationId : string) : string :=
  SITE_URL env +:+ "/verify/" +:+ verificationId.

(** [sendProofForVerification({ details, context })] *)
Definition sendProofForVerification (details : list (string * string)) (context : Context) : M unit :=
  try_catch
    (verificationId ← random_hex;
     _ ← effect (with_tokens
            <[verificationId :=
                {| tok_action := None; tok_context := context; tok_details := details |}]>);
     _ ← setTimeout (DeleteToken verificationId) TOKEN_TTL;
     owner ← client_users_fetch (OWNER_ID env);
     _ ← user_send_dm owner (verify_url verificationId);
     logAuditEvent "VERIFICAÇÃO: Notificação de comprovante enviada para o dono do bot.")
    (λ _, console_error "Erro ao enviar DM de verificação para o dono do bot:").

Definition context_productName (context : Context) : option string :=
  match context with
  | TicketCtx _ _ _ productName => productName
  | SiteCtx _ _ _ productName => productName
  end.

(** [sendDeliveryNotification({ context })] *)
Definition sendDeliveryNotification (context : Context) : M unit :=
  try_catch
    (verificationId ← random_hex;
     _ ← effect (with_tokens
            <[verificationId :=
                {| tok_action := Some "deliver"; tok_context := context;
                   tok_details :=
                     match context_productName context with
                     | Some n => [("productName", n)]
                     | None => []
                     end |}]>);
     _ ← setTimeout (DeleteToken verificationId) TOKEN_TTL;
     owner ← client_users_fetch (OWNER_ID env);
     _ ← user_send_dm owner (verify_url verificationId);
     logAuditEvent "ENTREGA: Notificação para marcar como entregue enviada ao admin.")
    (λ _, console_error "Erro ao enviar DM de notificação de entrega:").

Definition CHANNEL_GRACE_DELAY : Z := 10000.

(** The guard [!paymentChannel || !paymentChannel.topic] of
    [processPaymentConfirmation], after
    [guild.channels.fetch(channelId).catch(() => null)]. *)
Definition payment_channel_with_topic (channelId : string) : option (Channel * string) :=
  match channels_fetch env (Some channelId) with
  | Some paymentChannel =>
      match channel_topic paymentChannel with
      | Some topic => if truthy (Some topic) then Some (paymentChannel, topic) else None
      | None => None
      end
  | None => None
  end.

(** [processPaymentConfirmation(guild, channelId, productId, adminUser)] *)
Definition processPaymentConfirmation (channelId productId : string) (adminUser : DUser)
    : M ActionResult :=
  match payment_channel_with_topic channelId with
  | None =>
      _ ← console_error ("[ERRO] Canal de pagamento " +:+ channelId +:+ " não encontrado ou sem tópico.");
      mret {| success := false; message := "Canal de pagamento não encontrado." |}
  | Some (paymentChannel, topic) =>
      match match_digits_after "User: " topic with
      | None =>
          _ ← console_error ("[ERRO] Não foi possível extrair o ID do usuário do tópico do canal " +:+ channelId +:+ ".");
          mret {| success := false; message := "ID do usuário não encontrado no canal." |}
      | Some userId =>
          user ← client_users_fetch userId;
          product ← read (λ w, getProductById productId (db w));
          _ ← match product with
              | Some p =>
                  if bool_decide (Product.stock p ≠ (-1)%Z)
                  then effect (with_db (decreaseProductStock productId))
                  else mret tt
              | None => mret tt
              end;
          _ ← logAuditEvent ("PAGAMENTO CONFIRMADO: Admin " +:+ user_tag adminUser
                 +:+ " confirmou o pagamento para " +:+ user_tag user
                 +:+ " (Produto: " +:+ or_else (Product.name <$> product) "desconhecido"
                 +:+ ", ID: " +:+ productId +:+ ").");
          _ ← channel_delete_now paymentChannel "Pagamento confirmado. Criando canal de entrega.";
          _ ← updateFixedShoppingPanel;
          deliveryChannel ← guild_channels_create
              ("entrega-" +:+ slice_first 20 (user_username user))
              ("Canal de entrega para " +:+ user_tag user +:+ " (ID: " +:+ user_id user
                 +:+ ") | Produto: " +:+ productId)
              [user_id user; ADMIN_ROLE_ID env];
          _ ← channel_send_text deliveryChannel
              ("Atenção, <@&" +:+ ADMIN_ROLE_ID env +:+ ">!");
          _ ← sendDeliveryNotification
              (TicketCtx (channel_id deliveryChannel) (user_id user) productId
                 (Some (or_else (Product.name <$> product) "Desconhecido")));
          mret {| success := true;
                  message := "Pagamento aprovado para " +:+ user_tag user
                               +:+ ". Canal de entrega criado." |}
      end
  end.

(** [p.catch(() => null)] *)
Definition or_null {A} (c : M A) : M (option A) :=
  try_catch (a ← c; mret (Some a)) (λ _, mret None).

Definition action_is (action : option string) (name : string) : bool :=
  bool_decide (action = Some name).

Definition site_chat_topic (orderId userId : string) : string :=
  "Chat do Pedido do Site | OrderID: " +:+ orderId +:+ " | UserID: " +:+ userId.

Definition DELIVERED_NOTICE : string :=
  "O pedido foi marcado como ENTREGUE pela administração e este chat foi finalizado.".

(** [db.updateOrderStatus] as the bot calls it: the returned row is dropped. *)
Definition db_updateOrderStatus (orderId status : string) (extraData : ExtraData) : M unit :=
  effect (with_db (λ d, snd (updateOrderStatus orderId status extraData d))).

(** [processVerificationAction(action, context)] *)
Definition processVerificationAction (action : option string) (context : Context)
    : M ActionResult :=
  _ ← client_guilds_fetch;
  if action_is action "approve" then
    match context with
    | TicketCtx channelId userId productId productName =>
        owner ← client_users_fetch (OWNER_ID env);
        processPaymentConfirmation channelId productId owner
    | SiteCtx orderId userId _ _ =>
        targetOrder ← read (λ w, getOrderById orderId userId (db w));
        _ ← db_updateOrderStatus orderId "approved" no_extra;
        match targetOrder ≫= Order.productName with
        | None => throw (TypeError "Cannot read properties of null")
        | Some productName =>
            let channelName :=
              "chat-" +:+ slice_first 10 productName +:+ "-" +:+ slice_last 4 userId in
            ticketChannel ← guild_channels_create channelName
                (site_chat_topic orderId userId) [userId; ADMIN_ROLE_ID env];
            _ ← db_updateOrderStatus orderId "approved"
                {| extra_receiptUrl := None;
                   extra_ticketChannelId := Some (channel_id ticketChannel) |};
            _ ← sendDeliveryNotification
                (SiteCtx orderId userId None (Some productName));
            _ ← logAuditEvent ("SITE: Pedido " +:+ orderId +:+ " de <@" +:+ userId
                   +:+ "> APROVADO via link.");
            _ ← channel_send_text ticketChannel
                ("Olá <@" +:+ userId +:+ "> e <@&" +:+ ADMIN_ROLE_ID env
                   +:+ ">! Este é o chat para o seu pedido **"
                   +:+ productName +:+ "**.");
            mret {| success := true;
                    message := "Pedido do site " +:+ orderId
                                 +:+ " APROVADO. Canal de chat #" +:+ channelName
                                 +:+ " criado." |}
        end
    end
  else if action_is action "reject" then
    match context with
    | TicketCtx channelId userId productId productName =>
        paymentChannel ← or_null (client_channels_fetch (Some channelId));
        _ ← match paymentChannel with
            | Some c =>
                channel_send_text c
                  "❌ O seu comprovante foi analisado e **recusado**. Por favor, envie um comprovante válido ou entre em contato com o suporte."
            | None => mret tt
            end;
        _ ← logAuditEvent ("PAGAMENTO RECUSADO: Comprovante no canal "
               +:+ or_else (channel_name <$> paymentChannel) channelId
               +:+ " recusado via link.");
        mret {| success := true;
                message := "Pagamento RECUSADO para o canal "
                             +:+ or_else (channel_name <$> paymentChannel) "desconhecido"
                             +:+ ". O usuário foi notificado." |}
    | SiteCtx orderId userId _ _ =>
        _ ← db_updateOrderStatus orderId "declined" no_extra;
        _ ← logAuditEvent ("SITE: Pedido " +:+ orderId +:+ " de <@" +:+ userId
               +:+ "> RECUSADO via link.");
        mret {| success := true;
                message := "Pedido do site " +:+ orderId
                             +:+ " RECUSADO. O usuário será notificado no site." |}
    end
  else if action_is action "deliver" then
    match context with
    | TicketCtx channelId userId productId productName =>
        deliveryChannel ← or_null (client_channels_fetch (Some channelId));
        _ ← match deliveryChannel with
            | Some c =>
                _ ← channel_send_text c
                      "✅ Entrega confirmada! Este canal será excluído em 10 segundos.";
                setTimeout (DeleteChannel (channel_id c) "Entrega concluída.")
                  CHANNEL_GRACE_DELAY
            | None => mret tt
            end;
        user ← client_users_fetch userId;
        _ ← try_catch
              (user_send_dm user
                 ("🎉 Sua compra do produto **" +:+ default "undefined" productName
                    +:+ "** foi concluída com sucesso! Obrigado por comprar conosco."))
              (λ _, console_error "DiscordAPIError");
        _ ← logAuditEvent ("ENTREGA CONFIRMADA (via Link): Entrega para " +:+ user_tag user
               +:+ " (Produto: " +:+ default "undefined" productName +:+ ") concluída.");
        mret {| success := true;
                message := "Entrega para o ticket "
                             +:+ or_else (channel_name <$> deliveryChannel) "desconhecido"
                             +:+ " confirmada." |}
    | SiteCtx orderId userId _ _ =>
        targetOrder ← read (λ w, getOrderById orderId userId (db w));
        match targetOrder with
        | None =>
            mret {| success := false;
                    message := "Pedido do site com ID " +:+ orderId +:+ " não encontrado." |}
        | Some targetOrder =>
            _ ← db_updateOrderStatus orderId "entregue" no_extra;
            systemMessage ← read (λ w, {| author := system; content := DELIVERED_NOTICE;
                                          timestamp := now w |});
            _ ← effect (with_db (addMessageToOrder orderId systemMessage));
            user ← or_null (client_users_fetch userId);
            _ ← match user with
                | Some u =>
                    try_catch
                      (user_send_dm u
                         ("🎉 Sua compra do pedido **"
                            +:+ default "null" (Order.productName targetOrder)
                            +:+ "** (`" +:+ orderId
                            +:+ "`) foi concluída e entregue com sucesso!"))
                      (λ _, console_error "DiscordAPIError")
                | None => mret tt
                end;
            _ ← effect (with_emitted
                   (λ l, l ++ [{| room := orderId; except := None;
                                  payload := systemMessage |}]));
            _ ← logAuditEvent ("SITE: Pedido " +:+ orderId +:+ " de "
                   +:+ or_else (user_tag <$> user) userId
                   +:+ " marcado como ENTREGUE via link.");
            ticketChannel ← or_null (client_channels_fetch (Order.ticketChannelId targetOrder));
            _ ← match ticketChannel with
                | Some c =>
                    setTimeout (DeleteChannel (channel_id c) "Pedido do site entregue.")
                      CHANNEL_GRACE_DELAY
                | None => mret tt
                end;
            mret {| success := true;
                    message := "Pedido do site " +:+ orderId +:+ " marcado como ENTREGUE." |}
        end
    end
  else mret {| success := false; message := "Ação desconhecida." |}.

End Bot.

(** ** server.js: the web side *)

(** [INSERT INTO orders (...) VALUES (...)]: rejected on a duplicate [id]
    and on a [userId] or [productId] that references no row; [receiptUrl]
    and [ticketChannelId] are left NULL. *)
Definition createOrder (orderData : Order.t) : M unit :=
  λ w,
    if bool_decide (Order.id orderData ∈ Order.id <$> orders (db w))
    then (Throw (DatabaseError "orders_pkey"), w)
    else if bool_decide (Order.userId orderData ∉ Account.id <$> accounts (db w))
    then (Throw (DatabaseError "orders_userId_fkey"), w)
    else if match Order.productId orderData with
            | Some p => bool_decide (p ∉ Product.id <$> products (db w))
            | None => false
            end
    then (Throw (DatabaseError "orders_productId_fkey"), w)
    else (Ok tt, with_db (set_orders (λ l, l ++ [orderData])) w).

(** What a route handler answers with. *)
Inductive Response :=
  | Redirect (url : string)
  | SendStatus (status : nat) (body : string)
  | RenderActionResult (status : nat) (actionResult : ActionResult)
  | RenderMarkDelivery (verificationId : string) (details : list (string * string))
  | RenderVerifyReceipt (verificationId : string) (details : list (string * string))
  | RenderAwaitingPayment (product : Product.t) (order : Order.t).

(** [req.session.discordUser] *)
Record SessionUser := {
  su_id : string;
  su_username : string;
}.

(** The values that the identifiers of a handler can be bound to. *)
Inductive JsValue :=
  | JString (s : string)
  | JProduct (p : Product.t)
  | JOther.

(** The names bound at the top level of server.js, and those every Node
    module sees. *)
Definition server_module_scope : list string :=
  [ "express"; "session"; "path"; "http"; "fs"; "fetch"; "multer"; "Server"; "Socket";
    "pool"; "createTables"; "getProducts"; "getProductById"; "findOrCreateAccount";
    "createOrder"; "getOrdersByUserId"; "getOrderById"; "updateOrderStatus";
    "addMessageToOrder"; "cloudinary"; "client"; "loginBot"; "GUILD_ID";
    "DISCORD_CLIENT_ID"; "DISCORD_CLIENT_SECRET"; "OWNER_ID"; "ADMIN_ROLE_ID"; "SITE_URL";
    "sendProofForVerification"; "ChannelType"; "PermissionsBitField"; "app"; "server";
    "io"; "port"; "verificationTokens"; "upload"; "startServer";
    "exports"; "require"; "module"; "__filename"; "__dirname";
    "console"; "process"; "Date"; "Buffer"; "URLSearchParams"; "JSON"; "Object";
    "Error"; "Promise"; "setTimeout" ].

(** The scope in which the object literal [newOrder] of
    [GET /order/create/:productId] is evaluated: the handler's own
    bindings, then the module's. *)
Definition order_create_scope (productId : string) (productData : Product.t)
    (orderId : string) : list (string * JsValue) :=
  [ ("req", JOther); ("res", JOther); ("productId", JString productId);
    ("productData", JProduct productData); ("orderId", JString orderId) ]
  ++ ((λ n, (n, JOther)) <$> server_module_scope).

Definition scope_lookup (scope : list (string * JsValue)) (ident : string) : option JsValue :=
  snd <$> head (filter (λ b, fst b = ident) scope).

(** Reading an identifier: a name bound nowhere is a [ReferenceError]. *)
Definition read_identifier (scope : list (string * JsValue)) (ident : string) : M JsValue :=
  match scope_lookup scope ident with
  | Some v => mret v
  | None => throw (ReferenceError ident)
  end.

(** [v.id] and [v.name]; a property that is not there reads as
    [undefined]. *)
Definition member_id (v : JsValue) : option string :=
  match v with
  | JProduct p => Some (Product.id p)
  | _ => None
  end.

Definition member_name (v : JsValue) : option string :=
  match v with
  | JProduct p => Some (Product.name p)
  | _ => None
  end.

(** The message of a web chat client:
    [{ orderId, userId, username, message }]. *)
Record ChatPayload := {
  chat_orderId : string;
  chat_userId : string;
  chat_username : string;
  chat_message : string;
}.

(** A POST of a verification link that is suspended at an [await] of
    [processVerificationAction]: what the handler holds in its locals. *)
Record Pending := {
  pend_verificationId : string;
  pend_finalAction : option string;
  pend_context : Context;
}.


Definition ACCESS_DENIED : ActionResult :=
  {| success := false; message := "Acesso negado. O link pode ter expirado." |}.

Section Web.
Context (env : Env).

(** [GET /order/create/:productId] *)
Definition get_order_create (session : option SessionUser) (productId : string) : M Response :=
  match session with
  | None => mret (Redirect "/login")
  | Some discordUser =>
      try_catch
        (productData ← read (λ w, getProductById productId (db w));
         match productData with
         | None => mret (SendStatus 404 "Produto não encontrado.")
         | Some productData =>
             orderId ← read (λ w, "order-site-" +:+ pretty (now w));
             let scope := order_create_scope productId productData orderId in
             product1 ← read_identifier scope "product";
             product2 ← read_identifier scope "product";
             createdAt ← read now;
             let newOrder :=
               Order.mk orderId (su_id discordUser) (member_id product1)
                 (member_name product2) "analise" createdAt None None (Some []) in
             _ ← createOrder newOrder;
             mret (RenderAwaitingPayment productData newOrder)
         end)
        (λ _,
           _ ← console_error "Erro ao criar pedido:";
           mret (SendStatus 500 "Erro ao iniciar o processo de compra."))
  end.


(** [POST /verify/action/:verificationId], up to the first [await]: the
    token is looked up, and left in the map. *)
Definition post_verify_action_begin (verificationId : string) (action : option string)
    (w : World) : Response + Pending :=
  match verificationTokens w !! verificationId with
  | None => inl (RenderActionResult 403 ACCESS_DENIED)
  | Some tokenData =>
      inr {| pend_verificationId := verificationId;
             pend_finalAction :=
               if truthy (tok_action tokenData) then tok_action tokenData else action;
             pend_context := tok_context tokenData |}
  end.

(** The rest of the handler: the action is processed, then the token is
    deleted, then the page is rendered. *)
Definition post_verify_action_resume (p : Pending) : M Response :=
  result ← processVerificationAction env (pend_finalAction p) (pend_context p);
  _ ← effect (with_tokens (delete (pend_verificationId p)));
  mret (RenderActionResult 200 result).


(** The [chat_message_from_client] handler of a connected socket. *)
Definition chat_message_from_client (socketId : string) (p : ChatPayload) : M unit :=
  order ← read (λ w, getOrderById (chat_orderId p) (chat_userId p) (db w));
  newMessage ← read (λ w, {| author := user; content := chat_message p;
                             timestamp := now w |});
  _ ← effect (with_db (addMessageToOrder (chat_orderId p) newMessage));
  _ ← effect (with_emitted
         (λ l, l ++ [{| room := chat_orderId p; except := Some socketId;
                        payload := newMessage |}]));
  match order with
  | None => throw (TypeError "Cannot read properties of null (reading 'ticketChannelId')")
  | Some order =>
      if truthy (Order.ticketChannelId order) then
        try_catch
          (ticketChannel ← client_channels_fetch env (Order.ticketChannelId order);
           channel_send_text env ticketChannel
             ("**[SITE] " +:+ chat_username p +:+ ":** " +:+ chat_message p))
          (λ _, console_error
                  ("Erro ao enviar mensagem do site para o Discord (Canal: "
                     +:+ default "" (Order.ticketChannelId order) +:+ "):"))
      else mret tt
  end.

(** A [setTimeout] callback, run by the event loop. *)
Definition run_timer_action (a : TimerAction) : M unit :=
  match a with
  | DeleteToken verificationId => effect (with_tokens (delete verificationId))
  | DeleteChannel channelId reason =>
      if channel_delete env channelId
      then effect (with_discord (λ l, l ++ [ChannelDelete channelId reason]))
      else throw (DiscordAPIError "channel.delete")
  end.

End Web.

(** ** The event loop around the verification links *)

Record Server := {
  world : World;
  inflight : list Pending;
  rendered : list Response;
  rejections : list JsError;
}.

(** What the event loop can do next: start the handler of a POST that
    arrived (it runs to its first [await]), let a suspended handler run on
    to its end, let time pass, or run a timer callback that is due. *)
Inductive Event :=
  | PostVerifyAction (verificationId : string) (action : option string)
  | Resume (k : nat)
  | TimePasses (dt : Z)
  | TimerFires (k : nat).

Definition step (env : Env) (e : Event) (s : Server) : Server :=
  match e with
  | PostVerifyAction verificationId action =>
      match post_verify_action_begin verificationId action (world s) with
      | inl r =>
          {| world := world s; inflight := inflight s; rendered := rendered s ++ [r];
             rejections := rejections s |}
      | inr p =>
          {| world := world s; inflight := inflight s ++ [p]; rendered := rendered s;
             rejections := rejections s |}
      end
  | Resume k =>
      match inflight s !! k with
      | None => s
      | Some p =>
          match post_verify_action_resume env p (world s) with
          | (Ok r, w') =>
              {| world := w'; inflight := delete k (inflight s);
                 rendered := rendered s ++ [r]; rejections := rejections s |}
          | (Throw e, w') =>
              {| world := w'; inflight := delete k (inflight s);
                 rendered := rendered s; rejections := rejections s ++ [e] |}
          end
      end
  | TimePasses dt =>
      {| world := with_now (now (world s) + Z.max 0 dt)%Z (world s);
         inflight := inflight s; rendered := rendered s; rejections := rejections s |}
  | TimerFires k =>
      match timers (world s) !! k with
      | None => s
      | Some (due, a) =>
          if (due <=? now (world s))%Z then
            match run_timer_action env a (with_timers (delete k) (world s)) with
            | (Ok _, w') =>
                {| world := w'; inflight := inflight s; rendered := rendered s;
                   rejections := rejections s |}
            | (Throw e, w') =>
                {| world := w'; inflight := inflight s; rendered := rendered s;
                   rejections := rejections s ++ [e] |}
            end
          else s
      end
  end.

Definition run (env : Env) (events : list Event) (s : Server) : Server :=
  foldl (λ s e, step env e s) s events.

Definition idle (w : World) : Server :=
  {| world := w; inflight := []; rendered := []; rejections := [] |}.

(** ** Concrete data used by the examples *)

Definition key_product : Product.t :=
  Product.mk "CH12345" "Chave Misteriosa" 1550 (Some "Produto adicionado por admin#0001")
    (Some "K") 0.

Definition buyer_account : Account.t :=
  Account.mk "100000000000004321" (Some "buyer") (Some "0") None (Some 0%Z).

Definition site_order (status : string) (channel : option string)
    (messages : option (list Message)) : Order.t :=
  Order.mk "order-site-1700000000000" "100000000000004321" (Some "CH12345")
    (Some "Chave Misteriosa") status 1700000000000 None channel messages.

Definition shop (o : Order.t) : Database :=
  {| products := [key_product]; accounts := [buyer_account]; orders := [o];
     audit_logs := []; fixed_panel := None |}.

Definition quiet (d : Database) (tokens : gmap string Token) (t : Z) : World :=
  {| db := d; verificationTokens := tokens; timers := []; now := t; entropy := 0;
     discord := []; emitted := []; console := [] |}.

Definition owner_user : DUser :=
  {| user_id := "900"; user_username := "owner"; user_tag := "owner#0001" |}.

Definition buyer_user : DUser :=
  {| user_id := "100000000000004321"; user_username := "buyer"; user_tag := "buyer#0002" |}.

(** Discord answers every call; [relay_up] says whether the order's chat
    channel still exists. *)
Definition discord_up (relay_up : bool) : Env :=
  {| GUILD_ID := "guild-1"; OWNER_ID := "900"; ADMIN_ROLE_ID := "role-adm";
     SITE_URL := "https://loja.example";
     guilds_fetch := λ _, true;
     users_fetch := λ id, if bool_decide (id = "900") then Some owner_user
                          else Some buyer_user;
     user_send := λ _, true;
     channels_fetch := λ id,
       match id with
       | Some c =>
           if relay_up
           then Some {| channel_id := c; channel_name := "chat-Chave Mist-4321";
                        channel_topic := None |}
           else None
       | None => None
       end;
     channel_send := λ _, true;
     channel_delete := λ _, true;
     channels_create := λ name, Some ("chan-" +:+ name);
     panel_refresh := PanelSkipped;
     randomBytes := λ n, "tok" +:+ pretty n |}.

(** ** Predicates and data the statements use *)


(** The text of the direct message that tells the buyer of the delivery. *)
Definition delivered_dm (orderId : string) (targetOrder : Order.t) : string :=
  "🎉 Sua compra do pedido **" +:+ default "null" (Order.productName targetOrder)
    +:+ "** (`" +:+ orderId +:+ "`) foi concluída e entregue com sucesso!".

(** A row of the given id has the status that [updateOrderStatus] was
    called with. *)
Definition row_has_status (d : Database) (i : nat) (orderId status : string) : Prop :=
  ∃ o', orders d !! i = Some o' ∧ Order.id o' = orderId ∧ Order.status o' = status.



(** The writes that the bot and the web side make on the store. *)
Inductive StoreOp :=
  | OpUpdateOrderStatus (orderId status : string) (extraData : ExtraData)
  | OpAddMessageToOrder (orderId : string) (message : Message)
  | OpDecreaseProductStock (productId : string)
  | OpAddAuditLog (message : string).

Definition apply_op (op : StoreOp) (d : Database) : Database :=
  match op with
  | OpUpdateOrderStatus orderId status extraData =>
      snd (updateOrderStatus orderId status extraData d)
  | OpAddMessageToOrder orderId message => addMessageToOrder orderId message d
  | OpDecreaseProductStock productId => decreaseProductStock productId d
  | OpAddAuditLog message => addAuditLog message d
  end.

Definition apply_ops (ops : list StoreOp) (d : Database) : Database :=
  foldl (λ d op, apply_op op d) d ops.

(** The length of the transcript of the row at a position; 0 when there is
    no such row. *)
Definition transcript_length (d : Database) (i : nat) : nat :=
  from_option (λ o, length (transcript o)) 0 (orders d !! i).

(** Discord as in [discord_up], with a payment channel that carries the
    ticket topic. *)
Definition discord_with_ticket : Env :=
  {| GUILD_ID := "guild-1"; OWNER_ID := "900"; ADMIN_ROLE_ID := "role-adm";
     SITE_URL := "https://loja.example";
     guilds_fetch := λ _, true;
     users_fetch := λ id, if bool_decide (id = "900") then Some owner_user
                          else Some buyer_user;
     user_send := λ _, true;
     channels_fetch := λ id,
       (λ c, {| channel_id := c; channel_name := "pagamento-buyer-3000";
                channel_topic :=
                  Some "Ticket: pagamento-buyer-3000 | User: 100000000000004321 | ProductID: CH12345" |})
       <$> id;
     channel_send := λ _, true;
     channel_delete := λ _, true;
     channels_create := λ name, Some ("chan-" +:+ name);
     panel_refresh := PanelSkipped;
     randomBytes := λ n, "tok" +:+ pretty n |}.

Definition stocked_shop (stock : Z) : Database :=
  {| products := [Product.mk "CH12345" "Chave Misteriosa" 1550 None None stock];
     accounts := [buyer_account]; orders := []; audit_logs := [];
     fixed_panel := Some {| panelMessageId := None; panelChannelId := None |} |}.

(** ** More predicates for the statements *)

(** Every token in the map has an eviction timer waiting for it. *)
Definition tokens_have_timers (w : World) : Prop :=
  ∀ id, is_Some (verificationTokens w !! id) →
        ∃ due, (due, DeleteToken id) ∈ timers w.

(** A piece of handler code keeps the invariant [tokens_have_timers]. *)
Definition keeps_timers {A} (c : M A) : Prop :=
  ∀ w, tokens_have_timers w → tokens_have_timers (snd (c w)).

(** ** More of index.js: channel topics and the bridge from Discord *)

(** The topic that the select-menu handler gives a payment channel:
    [`Ticket: ${ticketId} | User: ${user.id} | ProductID: ${productId}`]. *)
Definition payment_channel_topic (ticketId userId productId : string) : string :=
  "Ticket: " +:+ ticketId +:+ " | User: " +:+ userId +:+ " | ProductID: " +:+ productId.

Fixpoint string_has (c : ascii) (s : string) : bool :=
  match s with
  | String a r => bool_decide (a = c) || string_has c r
  | EmptyString => false
  end.

Fixpoint all_digits (s : string) : bool :=
  match s with
  | String a r => is_digit a && all_digits r
  | EmptyString => true
  end.

(** Whether the text starts with a character of the class [\s] of a
    JavaScript regular expression, the text being UTF-8: tab to carriage
    return and the space, U+00A0, U+1680, U+2000 to U+200A, U+2028, U+2029,
    U+202F, U+205F, U+3000 and U+FEFF. *)
Definition js_space_here (s : string) : bool :=
  match s with
  | String a r =>
      let x := nat_of_ascii a in
      if ((9 <=? x) && (x <=? 13)) || (x =? 32) then true
      else
        match r with
        | String b r' =>
            let y := nat_of_ascii b in
            if (x =? 194) && (y =? 160) then true
            else
              match r' with
              | String c _ =>
                  let z := nat_of_ascii c in
                  ((x =? 225) && (y =? 154) && (z =? 128))
                  || ((x =? 226) && (y =? 128)
                      && (((128 <=? z) && (z <=? 138)) || (z =? 168) || (z =? 169)
                          || (z =? 175)))
                  || ((x =? 226) && (y =? 129) && (z =? 159))
                  || ((x =? 227) && (y =? 128) && (z =? 128))
                  || ((x =? 239) && (y =? 187) && (z =? 191))
              | EmptyString => false
              end
        | EmptyString => false
        end
  | EmptyString => false
  end.

(** The longest run [\S+] at the start of the text. *)
Fixpoint take_nonspace (s : string) : string :=
  match s with
  | String a r => if js_space_here s then EmptyString else String a (take_nonspace r)
  | EmptyString => EmptyString
  end.

Definition nonspace_here (prefix s : string) : option string :=
  match strip_prefix prefix s with
  | Some rest =>
      match take_nonspace rest with
      | EmptyString => None
      | d => Some d
      end
  | None => None
  end.

(** [topic.match(/OrderID: (\S+)/)], for any literal prefix. *)
Fixpoint match_nonspace_after (prefix s : string) : option string :=
  match nonspace_here prefix s with
  | Some d => Some d
  | None =>
      match s with
      | String _ r => match_nonspace_after prefix r
      | EmptyString => None
      end
  end.




(** ** More of server.js: the order pages and the upload *)

(** What the routes below answer with, besides the answers of
    [Response]: a JSON body [{ status }], the chat page, and the payment
    page with a product that may be missing. *)
Inductive Answer :=
  | Respond (r : Response)
  | Json (code : nat) (status : string)
  | RenderOrderChat (order : Order.t) (user : SessionUser) (messages : list Message)
  | RenderAwaitingPaymentOf (product : option Product.t) (order : Order.t).

(** [getProductById(order.productId)]: a NULL parameter matches no row. *)
Definition getProductOfOrder (order : Order.t) (d : Database) : option Product.t :=
  match Order.productId order with
  | Some productId => getProductById productId d
  | None => None
  end.

(** [GET /order/status/:orderId] *)
Definition get_order_status (session : option SessionUser) (orderId : string) : M Answer :=
  match session with
  | None => mret (Json 401 "unauthorized")
  | Some discordUser =>
      try_catch
        (order ← read (λ w, getOrderById orderId (su_id discordUser) (db w));
         match order with
         | Some order => mret (Json 200 (Order.status order))
         | None => mret (Json 404 "not_found")
         end)
        (λ _, mret (Json 500 "error"))
  end.

(** [GET /order/chat/:orderId] *)
Definition get_order_chat (session : option SessionUser) (orderId : string) : M Answer :=
  match session with
  | None => mret (Respond (Redirect "/login"))
  | Some discordUser =>
      order ← read (λ w, getOrderById orderId (su_id discordUser) (db w));
      match order with
      | Some order =>
          if bool_decide (Order.status order ≠ "approved")
             && bool_decide (Order.status order ≠ "entregue")
          then mret (Respond (SendStatus 403
                 "Acesso negado. O pedido não foi encontrado ou não está aprovado."))
          else mret (RenderOrderChat order discordUser (transcript order))
      | None =>
          mret (Respond (SendStatus 403
                 "Acesso negado. O pedido não foi encontrado ou não está aprovado."))
      end
  end.

(** [GET /order/awaiting-payment/:orderId] *)
Definition get_order_awaiting_payment (session : option SessionUser) (orderId : string)
    : M Answer :=
  match session with
  | None => mret (Respond (Redirect "/login"))
  | Some discordUser =>
      order ← read (λ w, getOrderById orderId (su_id discordUser) (db w));
      match order with
      | None => mret (Respond (SendStatus 404 "Pedido não encontrado."))
      | Some order =>
          product ← read (λ w, getProductOfOrder order (db w));
          mret (RenderAwaitingPaymentOf product order)
      end
  end.

Section Upload.
Context (env : Env).
(** [cloudinary.uploader.upload(dataURI, { public_id: orderId, ... })]: the
    [secure_url] of the stored image, or a rejection (which the handler
    catches whatever the error is). *)
Context (cloudinary_upload : string → option string).
(** How a price, a number or absent, is shown: [product?.price || 'N/A']. *)
Context (show_price : option Z → string).

(** [POST /order/upload/:orderId]; [has_file] says whether the form
    carried the receipt. *)
Definition post_order_upload (session : option SessionUser) (has_file : bool)
    (orderId : string) : M Response :=
  match session with
  | None => mret (SendStatus 401 "Não autorizado.")
  | Some discordUser =>
      if negb has_file then mret (SendStatus 400 "Nenhum arquivo enviado.")
      else
        let userId := su_id discordUser in
        try_catch
          (order ← read (λ w, getOrderById orderId userId (db w));
           secure_url ← match cloudinary_upload orderId with
                        | Some url => mret url
                        | None => throw (TypeError "cloudinary.uploader.upload")
                        end;
           _ ← db_updateOrderStatus orderId "pending_approval"
                 {| extra_receiptUrl := Some secure_url; extra_ticketChannelId := None |};
           match order with
           | None => throw (TypeError "Cannot read properties of null (reading 'productId')")
           | Some order =>
               product ← read (λ w, getProductOfOrder order (db w));
               _ ← sendProofForVerification env
                     [ ("title", "Verificação de Comprovante do Site");
                       ("userTag", su_username discordUser);
                       ("productName", or_else (Product.name <$> product) "Desconhecido");
                       ("productPrice", show_price (Product.price <$> product));
                       ("imageUrl", secure_url) ]
                     (SiteCtx orderId userId (Order.productId order) None);
               mret (Redirect ("/order/awaiting-payment/" +:+ orderId
                                 +:+ "?status=pending_approval"))
           end)
          (λ _,
             _ ← console_error "Erro ao processar upload:";
             mret (SendStatus 500 "Erro ao processar o comprovante."))
  end.

End Upload.

(** ** More of db.js: accounts and products *)

Definition set_accounts (f : list Account.t → list Account.t) (d : Database) : Database :=
  {| products := products d; accounts := f (accounts d); orders := orders d;
     audit_logs := audit_logs d; fixed_panel := fixed_panel d |}.

(** The Discord user that [findOrCreateAccount] is called with:
    [{ id, username, discriminator, avatar }]. *)
Record DiscordProfile := {
  profile_id : string;
  profile_username : option string;
  profile_discriminator : option string;
  profile_avatar : option string;
}.

(** [SELECT * FROM accounts WHERE id = $1] *)
Definition findAccount (id : string) (d : Database) : option Account.t :=
  sql_select_first (λ a, bool_decide (Account.id a = id)) (accounts d).

Definition refresh_account (discordUser : DiscordProfile) (a : Account.t) : Account.t :=
  Account.mk (Account.id a) (profile_username discordUser) (Account.discriminator a)
    (profile_avatar discordUser) (Account.verifiedAt a).

(** [findOrCreateAccount(discordUser)]: an account that exists gets the
    user's current name and avatar, and the row that was read before this
    update is returned; otherwise a row is inserted, verified now, and
    returned. *)
Definition findOrCreateAccount (discordUser : DiscordProfile) : M Account.t :=
  λ w,
    match findAccount (profile_id discordUser) (db w) with
    | Some row =>
        (Ok row,
         with_db (set_accounts
                    (sql_update (λ a, bool_decide (Account.id a = profile_id discordUser))
                       (refresh_account discordUser))) w)
    | None =>
        let row := Account.mk (profile_id discordUser) (profile_username discordUser)
                     (profile_discriminator discordUser) (profile_avatar discordUser)
                     (Some (now w)) in
        (Ok row, with_db (set_accounts (λ l, l ++ [row])) w)
    end.

(** [DELETE FROM products WHERE id = $1]: refused while an order
    references the product ([orders."productId" REFERENCES products(id)]). *)
Definition deleteProduct (productId : string) : M unit :=
  λ w,
    if bool_decide (Some productId ∈ Order.productId <$> orders (db w))
    then (Throw (DatabaseError "orders_productId_fkey"), w)
    else (Ok tt,
          with_db (set_products (filter (λ p, Product.id p ≠ productId))) w).

(** ** migrate.js: loading the legacy JSON files into the tables *)

(** [INSERT INTO products ... ON CONFLICT (id) DO UPDATE SET] every other
    column: a row of that id takes the values of the entry, a new id is
    appended. *)
Definition upsert_product (p : Product.t) (rows : list Product.t) : list Product.t :=
  if bool_decide (Product.id p ∈ Product.id <$> rows)
  then (λ r, if bool_decide (Product.id r = Product.id p) then p else r) <$> rows
  else rows ++ [p].

(** The loop of [migrateProducts] over the entries of [stock.json], each
    entry given as the row it describes (its key as the id). *)
Fixpoint migrate_each_product (entries : list Product.t) : M unit :=
  match entries with
  | [] => mret tt
  | p :: rest =>
      _ ← effect (with_db (set_products (upsert_product p)));
      _ ← console_log ("Produto '" +:+ Product.name p +:+ "' (ID: " +:+ Product.id p
                         +:+ ") migrado.");
      migrate_each_product rest
  end.

(** [migrateProducts()]; [stockData] is absent when the file cannot be
    read or parsed. *)
Definition migrateProducts (stockData : option (list Product.t)) : M unit :=
  try_catch
    (match stockData with
     | None => throw (TypeError "stock.json")
     | Some entries =>
         _ ← console_log "Iniciando migração de produtos...";
         _ ← migrate_each_product entries;
         console_log "✅ Migração de produtos concluída!"
     end)
    (λ _, console_error "❌ Erro ao migrar produtos:").

(** An entry of [data_accounts.json]: the account under its key, with the
    orders it lists. *)
Record LegacyAccount := {
  legacy_account : Account.t;
  legacy_orders : list Order.t;
}.

(** [INSERT INTO accounts ... ON CONFLICT (id) DO NOTHING] *)
Definition insert_account_if_absent (a : Account.t) (d : Database) : Database :=
  if bool_decide (Account.id a ∈ Account.id <$> accounts d)
  then d
  else set_accounts (λ l, l ++ [a]) d.

(** [INSERT INTO orders ... ON CONFLICT (id) DO NOTHING]: an id that is
    there is left alone; a new row must reference an account and, if it
    names a product, a product. *)
Definition insert_order_if_absent (o : Order.t) : M unit :=
  λ w,
    if bool_decide (Order.id o ∈ Order.id <$> orders (db w)) then (Ok tt, w)
    else if bool_decide (Order.userId o ∉ Account.id <$> accounts (db w))
    then (Throw (DatabaseError "orders_userId_fkey"), w)
    else if match Order.productId o with
            | Some p => bool_decide (p ∉ Product.id <$> products (db w))
            | None => false
            end
    then (Throw (DatabaseError "orders_productId_fkey"), w)
    else (Ok tt, with_db (set_orders (λ l, l ++ [o])) w).

Fixpoint migrate_each_order (rows : list Order.t) : M unit :=
  match rows with
  | [] => mret tt
  | o :: rest =>
      _ ← insert_order_if_absent o;
      _ ← console_log ("-- Pedido '" +:+ Order.id o +:+ "' migrado.");
      migrate_each_order rest
  end.

Fixpoint migrate_each_account (entries : list LegacyAccount) : M unit :=
  match entries with
  | [] => mret tt
  | e :: rest =>
      _ ← effect (with_db (insert_account_if_absent (legacy_account e)));
      _ ← console_log ("Conta '" +:+ default "null" (Account.username (legacy_account e))
                         +:+ "' (ID: " +:+ Account.id (legacy_account e) +:+ ") migrada.");
      _ ← migrate_each_order (legacy_orders e);
      migrate_each_account rest
  end.

(** [migrateAccountsAndOrders()] *)
Definition migrateAccountsAndOrders (accountsData : option (list LegacyAccount)) : M unit :=
  try_catch
    (match accountsData with
     | None => throw (TypeError "data_accounts.json")
     | Some entries =>
         _ ← console_log "Iniciando migração de contas e pedidos...";
         _ ← migrate_each_account entries;
         console_log "✅ Migração de contas e pedidos concluída!"
     end)
    (λ _, console_error "❌ Erro ao migrar contas e pedidos:").

(** The value that the entries give a row: the last entry of its id, or
    the row itself when no entry has its id. *)
Definition settle_product (entries : list Product.t) (r : Product.t) : Product.t :=
  foldl (λ r p, if bool_decide (Product.id r = Product.id p) then p else r) r entries.

(** The work list of the accounts migration, in the order of the loops. *)
Inductive LegacyItem :=
  | ItemAccount (a : Account.t)
  | ItemOrder (o : Order.t).

Definition legacy_items (entries : list LegacyAccount) : list LegacyItem :=
  entries ≫= (λ e, ItemAccount (legacy_account e) :: (ItemOrder <$> legacy_orders e)).

Definition item_present (x : LegacyItem) (d : Database) : Prop :=
  match x with
  | ItemAccount a => Account.id a ∈ Account.id <$> accounts d
  | ItemOrder o => Order.id o ∈ Order.id <$> orders d
  end.

(** What one insert of the accounts migration does to the tables; [None]
    when the statement is refused. *)
Definition item_step (x : LegacyItem) (d : Database) : option Database :=
  match x with
  | ItemAccount a => Some (insert_account_if_absent a d)
  | ItemOrder o =>
      if bool_decide (Order.id o ∈ Order.id <$> orders d) then Some d
      else if bool_decide (Order.userId o ∉ Account.id <$> accounts d) then None
      else if match Order.productId o with
              | Some p => bool_decide (p ∉ Product.id <$> products d)
              | None => false
              end
      then None
      else Some (set_orders (λ l, l ++ [o]) d)
  end.

(** The inserts in a row, up to the first one refused: whether all were
    made, and the tables left. *)
Fixpoint items_run (xs : list LegacyItem) (d : Database) : bool * Database :=
  match xs with
  | [] => (true, d)
  | x :: rest =>
      match item_step x d with
      | Some d' => items_run rest d'
      | None => (false, d)
      end
  end.

Definition is_ok {A} (r : Res A) : bool :=
  match r with Ok _ => true | Throw _ => false end.

(** * Properties *)

(** ** The store *)

Lemma sql_update_lookup {A} (cond : A → bool) (upd : A → A) (rows : list A) (i : nat) :
  sql_update cond upd rows !! i = (λ r, if cond r then upd r else r) <$> rows !! i.
Proof. unfold sql_update. apply list_lookup_fmap. Qed.

Lemma sql_update_length {A} (cond : A → bool) (upd : A → A) (rows : list A) :
  length (sql_update cond upd rows) = length rows.
Proof. unfold sql_update. apply length_fmap. Qed.

(** C8: [decreaseProductStock] takes exactly one unit from a row of the
    given id whose stock is positive, and leaves every other row as it is:
    a stock of 0 stays 0, the unlimited stock -1 stays -1, a stock that is
    not negative never becomes negative, and nothing but [stock] changes. *)
Theorem decreaseProductStock_guarded (productId : string) (d : Database)
    (i : nat) (p : Product.t) :
  products d !! i = Some p →
  ∃ p', products (decreaseProductStock productId d) !! i = Some p'
    ∧ (Product.id p = productId → (0 < Product.stock p)%Z →
         Product.stock p' = (Product.stock p - 1)%Z)
    ∧ ((Product.stock p ≤ 0)%Z → p' = p)
    ∧ (Product.id p ≠ productId → p' = p)
    ∧ (Product.stock p = 0%Z → Product.stock p' = 0%Z)
    ∧ (Product.stock p = (-1)%Z → Product.stock p' = (-1)%Z)
    ∧ ((0 ≤ Product.stock p)%Z → (0 ≤ Product.stock p')%Z)
    ∧ Product.id p' = Product.id p ∧ Product.name p' = Product.name p
    ∧ Product.price p' = Product.price p
    ∧ Product.description p' = Product.description p
    ∧ Product.emoji p' = Product.emoji p
    ∧ length (products (decreaseProductStock productId d)) = length (products d)
    ∧ orders (decreaseProductStock productId d) = orders d.
Proof.
  intros Hp. unfold decreaseProductStock, set_products. cbn [products orders].
  rewrite sql_update_lookup, Hp, sql_update_length. cbn [fmap option_fmap option_map].
  eexists. split; [reflexivity|].
  destruct (bool_decide_reflect (Product.id p = productId)) as [Hid|Hid];
    destruct (Z.ltb_spec 0 (Product.stock p)) as [Hs|Hs];
    cbn [andb decrement_stock Product.stock Product.id Product.name Product.price
         Product.description Product.emoji];
    repeat split; intros; try reflexivity; try congruence; try lia.
Qed.

Lemma decreaseProductStock_guarded_witness :
  Product.stock <$> products (decreaseProductStock "CH12345" (shop (site_order "analise" None None))) !! 0
    = Some 0%Z.
Proof.
  destruct (decreaseProductStock_guarded "CH12345" (shop (site_order "analise" None None))
              0 key_product eq_refl)
    as (p' & Hp' & _ & _ & _ & H0 & _).
  rewrite Hp'. cbn. f_equal. apply H0. reflexivity.
Defined.


(** The transcript that a reader sees never gets shorter by
    [addMessageToOrder]. *)
Lemma addMessageToOrder_transcript_length (orderId : string) (m : Message) (d : Database)
    (i : nat) (o : Order.t) :
  orders d !! i = Some o →
  ∃ o', orders (addMessageToOrder orderId m d) !! i = Some o'
    ∧ length (transcript o) ≤ length (transcript o').
Proof.
  intros Ho. unfold addMessageToOrder, set_orders. cbn [orders].
  rewrite sql_update_lookup, Ho. cbn. eexists. split; [reflexivity|].
  case_bool_decide; [|done].
  unfold transcript, append_message. cbn. destruct (Order.messages o); cbn; [|done].
  rewrite length_app. lia.
Qed.

(** C9: on an order whose [messages] column is NULL, as [migrate.js]
    stores it for an order without messages, [addMessageToOrder] appends
    nothing: the column is still NULL and the transcript still empty. *)
Theorem addMessageToOrder_null_column_drops_message :
  let d := shop (site_order "approved" (Some "chan-1") None) in
  let m := {| author := user; content := "oi"; timestamp := 1700000000500 |} in
  Order.messages <$> orders d !! 0 = Some None
  ∧ Order.messages <$> orders (addMessageToOrder "order-site-1700000000000" m d) !! 0
      = Some None
  ∧ transcript <$> orders (addMessageToOrder "order-site-1700000000000" m d) !! 0
      = Some [].
Proof. repeat split. Qed.



(** ** Running handlers *)

Ltac run_handler :=
  unfold mbind, M_bind, bind, mret, M_ret, ret, throw, effect, read, try_catch,
    console_error, console_log.

(** ** The order-creation route *)

(** No binding of the handler or of the module is called [product]. *)
Lemma product_is_unbound (productId : string) (productData : Product.t) (orderId : string) :
  scope_lookup (order_create_scope productId productData orderId) "product" = None.
Proof. reflexivity. Qed.

(** C5: for a logged-in request and a product that exists, the handler
    raises a ReferenceError on [product] when it builds [newOrder], before
    [createOrder]; the catch block answers 500, and the store is what it
    was: no order is inserted. *)
Theorem order_create_answers_500 (discordUser : SessionUser) (productId : string)
    (productData : Product.t) (w : World) :
  getProductById productId (db w) = Some productData →
  read_identifier
      (order_create_scope productId productData ("order-site-" +:+ pretty (now w)))
      "product" w
    = (Throw (ReferenceError "product"), w)
  ∧ get_order_create (Some discordUser) productId w
    = (Ok (SendStatus 500 "Erro ao iniciar o processo de compra."),
       with_console (λ l, l ++ [ConsoleError "Erro ao criar pedido:"]) w)
  ∧ db (snd (get_order_create (Some discordUser) productId w)) = db w.
Proof.
  intros Hp.
  assert (get_order_create (Some discordUser) productId w
          = (Ok (SendStatus 500 "Erro ao iniciar o processo de compra."),
             with_console (λ l, l ++ [ConsoleError "Erro ao criar pedido:"]) w)) as Hrun.
  { unfold get_order_create. run_handler. rewrite Hp.
    unfold read_identifier. rewrite product_is_unbound. reflexivity. }
  split; [|split].
  - unfold read_identifier. rewrite product_is_unbound. reflexivity.
  - exact Hrun.
  - rewrite Hrun. reflexivity.
Qed.

Lemma order_create_answers_500_witness :
  fst (get_order_create (Some {| su_id := "100000000000004321"; su_username := "buyer" |})
         "CH12345" (quiet (shop (site_order "analise" None (Some []))) ∅ 1700000000000))
  = Ok (SendStatus 500 "Erro ao iniciar o processo de compra.").
Proof.
  destruct (order_create_answers_500
              {| su_id := "100000000000004321"; su_username := "buyer" |} "CH12345"
              key_product
              (quiet (shop (site_order "analise" None (Some []))) ∅ 1700000000000)
              eq_refl) as (_ & Hrun & _).
  rewrite Hrun. reflexivity.
Defined.

(** ** The web chat bridge *)



(** C4: a web message that claims a user who does not own the order is
    not rejected: the lookup finds no order for that user, and the handler
    still stores the message in the order's transcript and broadcasts it
    to the order's room, and only then fails on the missing order. *)
Theorem chat_message_of_a_stranger_is_stored :
  let p := {| chat_orderId := "order-site-1700000000000";
              chat_userId := "666000000000000666";
              chat_username := "stranger"; chat_message := "pague de novo" |} in
  let w := quiet (shop (site_order "approved" (Some "chan-1") (Some []))) ∅ 1700000000900 in
  let m := {| author := user; content := "pague de novo"; timestamp := 1700000000900 |} in
  let out := chat_message_from_client (discord_up true) "sock-9" p w in
  Order.userId <$> orders (db w) !! 0 = Some "100000000000004321"
  ∧ getOrderById (chat_orderId p) (chat_userId p) (db w) = None
  ∧ transcript <$> orders (db (snd out)) !! 0 = Some [m]
  ∧ emitted (snd out)
      = [{| room := "order-site-1700000000000"; except := Some "sock-9"; payload := m |}]
  ∧ fst out
      = Throw (TypeError "Cannot read properties of null (reading 'ticketChannelId')").
Proof. repeat split. Qed.

(** ** The transitions of a site order *)

Ltac run_discord :=
  unfold client_guilds_fetch, client_users_fetch, client_channels_fetch, user_send_dm,
    channel_send_text, guild_channels_create, or_null, logAuditEvent, setTimeout,
    random_hex, db_updateOrderStatus;
  run_handler.

(** The notification of the owner touches the token map, the timers, the
    logs and Discord, and no order. *)
Lemma sendDeliveryNotification_orders (env : Env) (context : Context) (w : World) :
  orders (db (snd (sendDeliveryNotification env context w))) = orders (db w).
Proof.
  unfold sendDeliveryNotification. run_discord. cbn.
  destruct (users_fetch env (OWNER_ID env)) as [owner|]; cbn; [|reflexivity].
  destruct (user_send env (user_id owner)); reflexivity.
Qed.

(** What one run of the site ['deliver'] branch leaves behind. *)
Lemma deliver_site_effects (env : Env) (w : World) (orderId userId : string)
    (productId productName : option string) (targetOrder : Order.t) :
  guilds_fetch env (GUILD_ID env) = true →
  getOrderById orderId userId (db w) = Some targetOrder →
  let systemMessage :=
    {| author := system; content := DELIVERED_NOTICE; timestamp := now w |} in
  let out :=
    processVerificationAction env (Some "deliver")
      (SiteCtx orderId userId productId productName) w in
  fst out = Ok {| success := true;
                  message := "Pedido do site " +:+ orderId +:+ " marcado como ENTREGUE." |}
  ∧ orders (db (snd out))
      = orders (addMessageToOrder orderId systemMessage
                  (snd (updateOrderStatus orderId "entregue" no_extra (db w))))
  ∧ emitted (snd out)
      = emitted w ++ [{| room := orderId; except := None; payload := systemMessage |}]
  ∧ discord (snd out)
      = discord w ++
        match users_fetch env userId with
        | Some u =>
            if user_send env (user_id u)
            then [DirectMessage (user_id u) (delivered_dm orderId targetOrder)]
            else []
        | None => []
        end
  ∧ timers (snd out)
      = timers w ++
        match channels_fetch env (Order.ticketChannelId targetOrder) with
        | Some c =>
            [((now w + 10000)%Z, DeleteChannel (channel_id c) "Pedido do site entregue.")]
        | None => []
        end
  ∧ verificationTokens (snd out) = verificationTokens w.
Proof.
  intros Hguild Horder systemMessage out.
  assert (action_is (Some "deliver") "approve" = false) as Ha by reflexivity.
  assert (action_is (Some "deliver") "reject" = false) as Hr by reflexivity.
  assert (action_is (Some "deliver") "deliver" = true) as Hd by reflexivity.
  subst out systemMessage. unfold processVerificationAction. rewrite Ha, Hr, Hd.
  run_discord. rewrite Hguild. cbn. rewrite Horder. cbn.
  destruct (users_fetch env userId) as [u|]; cbn;
    [destruct (user_send env (user_id u)); cbn|];
    (destruct (channels_fetch env (Order.ticketChannelId targetOrder)) as [c|]; cbn;
     rewrite ?app_nil_r; repeat split; reflexivity).
Qed.



Lemma updateOrderStatus_row (orderId status : string) (extraData : ExtraData)
    (d : Database) (i : nat) (o : Order.t) :
  orders d !! i = Some o → Order.id o = orderId →
  row_has_status (snd (updateOrderStatus orderId status extraData d)) i orderId status.
Proof.
  intros Ho Hid. unfold row_has_status, updateOrderStatus, set_orders.
  cbn [snd orders]. rewrite sql_update_lookup, Ho. cbn [fmap option_fmap option_map].
  rewrite bool_decide_eq_true_2 by done. eexists. split; [reflexivity|]. by split.
Qed.

Lemma row_has_status_again (orderId status : string) (extraData : ExtraData)
    (d : Database) (i : nat) (old : string) :
  row_has_status d i orderId old →
  row_has_status (snd (updateOrderStatus orderId status extraData d)) i orderId status.
Proof. intros (o & Ho & Hid & _). by eapply updateOrderStatus_row. Qed.

Lemma row_has_status_frame (d d' : Database) (i : nat) (orderId status : string) :
  orders d' = orders d → row_has_status d i orderId status →
  row_has_status d' i orderId status.
Proof. unfold row_has_status. by intros ->. Qed.

Lemma getOrderById_finds (orderId userId : string) (d : Database) (i : nat) (o : Order.t) :
  orders d !! i = Some o → Order.id o = orderId → Order.userId o = userId →
  is_Some (getOrderById orderId userId d).
Proof.
  intros Ho Hid Hu. unfold getOrderById, sql_select_first.
  destruct (filter _ (orders d)) as [|x l] eqn:Hf; [|by eexists].
  exfalso. apply (filter_nil_not_elem_of _ _ o Hf).
  - by rewrite !bool_decide_eq_true_2.
  - by eapply list_elem_of_lookup_2.
Qed.

Arguments updateOrderStatus : simpl never.
Arguments sendDeliveryNotification : simpl never.

(** The site ['approve'] branch writes ['approved'] before it looks at the
    order it fetched, and nothing that follows takes the status back. *)
Lemma approve_site_row (env : Env) (w : World) (orderId userId : string)
    (productId productName : option string) (i : nat) (o : Order.t) :
  guilds_fetch env (GUILD_ID env) = true →
  orders (db w) !! i = Some o → Order.id o = orderId →
  let out := processVerificationAction env (Some "approve")
               (SiteCtx orderId userId productId productName) w in
  row_has_status (db (snd out)) i orderId "approved"
  ∧ (∀ r, fst out = Ok r → success r = true).
Proof.
  intros Hguild Ho Hid out. subst out.
  assert (action_is (Some "approve") "approve" = true) as Ha by reflexivity.
  unfold processVerificationAction. rewrite Ha.
  run_discord. rewrite Hguild. cbn.
  pose proof (updateOrderStatus_row orderId "approved" no_extra (db w) i o Ho Hid) as Hrow.
  destruct (option_bind _ _ _ _) as [name|]; cbn.
  2: { split; [exact Hrow | intros r; discriminate]. }
  destruct (channels_create env _) as [chan|]; cbn.
  2: { split; [exact Hrow | intros r; discriminate]. }
  match goal with
  | |- context [sendDeliveryNotification env ?c ?w1] =>
      pose proof (sendDeliveryNotification_orders env c w1) as Hframe;
      destruct (sendDeliveryNotification env c w1) as [[[]|e] w2]
  end; cbn in Hframe |- *.
  2: { split; [|intros r; discriminate].
       eapply row_has_status_frame; [exact Hframe|].
       by eapply row_has_status_again. }
  destruct (channel_send env chan); cbn.
  all: split; [|intros r; try discriminate; by intros [= <-]].
  all: eapply row_has_status_frame; [exact Hframe|]; by eapply row_has_status_again.
Qed.

Lemma reject_site_row (env : Env) (w : World) (orderId userId : string)
    (productId productName : option string) (i : nat) (o : Order.t) :
  guilds_fetch env (GUILD_ID env) = true →
  orders (db w) !! i = Some o → Order.id o = orderId →
  let out := processVerificationAction env (Some "reject")
               (SiteCtx orderId userId productId productName) w in
  row_has_status (db (snd out)) i orderId "declined"
  ∧ success <$> (match fst out with Ok r => Some r | Throw _ => None end) = Some true.
Proof.
  intros Hguild Ho Hid out. subst out.
  assert (action_is (Some "reject") "approve" = false) as Ha by reflexivity.
  assert (action_is (Some "reject") "reject" = true) as Hr by reflexivity.
  unfold processVerificationAction. rewrite Ha, Hr.
  run_discord. rewrite Hguild. cbn. split; [|reflexivity].
  by eapply updateOrderStatus_row.
Qed.

Lemma row_has_status_addMessage (d : Database) (i : nat) (orderId status target : string)
    (m : Message) :
  row_has_status d i orderId status →
  row_has_status (addMessageToOrder target m d) i orderId status.
Proof.
  intros (o & Ho & Hid & Hs). unfold row_has_status, addMessageToOrder, set_orders.
  cbn [orders]. rewrite sql_update_lookup, Ho. cbn [fmap option_fmap option_map].
  eexists. split; [reflexivity|]. by case_bool_decide.
Qed.

(** C2, as the code has it: no transition of a site order is refused on
    account of the status the order has. With the guild reachable,
    ['approve'] leaves every row of the order ['approved'] and never answers
    with a failure, ['reject'] leaves it ['declined'] and answers a success,
    and ['deliver'], for the user who owns the row, leaves it ['entregue']
    and answers a success, whatever the status was before, a final one
    included. *)
Theorem site_transitions_ignore_current_status (env : Env) (w : World)
    (orderId userId : string) (productId productName : option string)
    (i : nat) (o : Order.t) :
  guilds_fetch env (GUILD_ID env) = true →
  orders (db w) !! i = Some o → Order.id o = orderId →
  let go action :=
    processVerificationAction env (Some action)
      (SiteCtx orderId userId productId productName) w in
  (row_has_status (db (snd (go "approve"))) i orderId "approved"
   ∧ (∀ r, fst (go "approve") = Ok r → success r = true))
  ∧ (row_has_status (db (snd (go "reject"))) i orderId "declined"
     ∧ success <$> (match fst (go "reject") with Ok r => Some r | Throw _ => None end)
         = Some true)
  ∧ (Order.userId o = userId →
       row_has_status (db (snd (go "deliver"))) i orderId "entregue"
       ∧ success <$> (match fst (go "deliver") with Ok r => Some r | Throw _ => None end)
           = Some true).
Proof.
  intros Hguild Ho Hid go. subst go. cbv beta.
  split; [by eapply approve_site_row|]. split; [by eapply reject_site_row|].
  intros Hu.
  destruct (getOrderById_finds orderId userId (db w) i o Ho Hid Hu) as [targetOrder Ht].
  destruct (deliver_site_effects env w orderId userId productId productName targetOrder
              Hguild Ht) as (Hok & Hdb & _).
  rewrite Hok. split; [|reflexivity].
  eapply row_has_status_frame; [exact Hdb|].
  apply row_has_status_addMessage. by eapply updateOrderStatus_row.
Qed.

(** C2 does not hold as stated: an order that is already ['entregue'] and
    is approved again is not refused; the answer is a success and the
    status goes back to ['approved']. *)
Lemma approve_on_delivered_order_is_applied :
  let w := quiet (shop (site_order "entregue" (Some "chan-1") (Some []))) ∅ 1700000002000 in
  let out :=
    processVerificationAction (discord_up true) (Some "approve")
      (SiteCtx "order-site-1700000000000" "100000000000004321" (Some "CH12345") None) w in
  Order.status <$> orders (db w) !! 0 = Some "entregue"
  ∧ success <$> (match fst out with Ok r => Some r | Throw _ => None end) = Some true
  ∧ Order.status <$> orders (db (snd out)) !! 0 = Some "approved".
Proof. vm_compute. repeat split. Qed.

Lemma site_transitions_ignore_current_status_witness :
  row_has_status
    (db (snd (processVerificationAction (discord_up true) (Some "approve")
                (SiteCtx "order-site-1700000000000" "100000000000004321"
                   (Some "CH12345") None)
                (quiet (shop (site_order "entregue" (Some "chan-1") (Some []))) ∅
                   1700000002000))))
    0 "order-site-1700000000000" "approved".
Proof.
  exact (proj1 (proj1 (site_transitions_ignore_current_status (discord_up true)
           (quiet (shop (site_order "entregue" (Some "chan-1") (Some []))) ∅ 1700000002000)
           "order-site-1700000000000" "100000000000004321" (Some "CH12345") None 0
           (site_order "entregue" (Some "chan-1") (Some []))
           eq_refl eq_refl eq_refl))).
Defined.

(** ** The verification links *)




(** When the action fails with an exception, the handler never reaches the
    deletion: the token map is the one the action left. *)
Lemma failed_post_keeps_token (env : Env) (p : Pending) (w w' : World) (e : JsError) :
  processVerificationAction env (pend_finalAction p) (pend_context p) w = (Throw e, w') →
  post_verify_action_resume env p w = (Throw e, w').
Proof. intros Hthrow. unfold post_verify_action_resume. run_handler. by rewrite Hthrow. Qed.





(** ** Sequences of store operations *)

Lemma apply_op_transcript (op : StoreOp) (d : Database) (i : nat) :
  length (orders (apply_op op d)) = length (orders d)
  ∧ transcript_length d i ≤ transcript_length (apply_op op d) i.
Proof.
  unfold transcript_length.
  destruct op as [orderId status extraData|orderId message|productId|message];
    cbn [apply_op].
  - unfold updateOrderStatus, set_orders. cbn [snd orders].
    rewrite sql_update_length, sql_update_lookup. split; [done|].
    destruct (orders d !! i) as [o|]; cbn; [|done]. by case_bool_decide.
  - unfold addMessageToOrder, set_orders. cbn [orders].
    rewrite sql_update_length, sql_update_lookup. split; [done|].
    destruct (orders d !! i) as [o|]; cbn; [|done].
    case_bool_decide; [|done]. unfold transcript. cbn.
    destruct (Order.messages o); cbn; [|done]. rewrite length_app. lia.
  - done.
  - done.
Qed.

(** Under any sequence of store operations the table of orders keeps its
    rows and no transcript gets shorter. *)
Theorem transcript_never_shrinks (ops : list StoreOp) (d : Database) (i : nat) :
  length (orders (apply_ops ops d)) = length (orders d)
  ∧ transcript_length d i ≤ transcript_length (apply_ops ops d) i.
Proof.
  revert d. induction ops as [|op ops IH]; intros d; [done|].
  unfold apply_ops in *. cbn [foldl].
  destruct (IH (apply_op op d)) as [Hlen Hle].
  destruct (apply_op_transcript op d i) as [Hlen1 Hle1].
  split; [congruence | lia].
Qed.

(** ** The ticket flow, on an example *)

Example user_id_of_topic :
  match_digits_after "User: "
    "Ticket: pagamento-buyer-3000 | User: 100000000000004321 | ProductID: CH12345"
  = Some "100000000000004321".
Proof. reflexivity. Qed.

Example user_id_needs_digits :
  match_digits_after "User: " "Ticket: pagamento-buyer-3000 | User: buyer" = None.
Proof. reflexivity. Qed.

Example channel_name_of_order :
  "chat-" +:+ slice_first 10 "Chave Misteriosa" +:+ "-" +:+ slice_last 4 "100000000000004321"
  = "chat-Chave Mist-4321".
Proof. reflexivity. Qed.

(** A confirmed payment takes one unit of a stocked product, leaves the
    unlimited stock alone, and issues a delivery token. *)
Example payment_confirmation_stock :
  let approve stock :=
    processVerificationAction discord_with_ticket (Some "approve")
      (TicketCtx "chan-pay" "100000000000004321" "CH12345" None)
      (quiet (stocked_shop stock) ∅ 1700000004000) in
  (Product.stock <$> products (db (snd (approve 3%Z))) = [2%Z])
  ∧ (Product.stock <$> products (db (snd (approve (-1)%Z))) = [(-1)%Z])
  ∧ (Product.stock <$> products (db (snd (approve 0%Z))) = [0%Z])
  ∧ (tok_action <$> verificationTokens (snd (approve 3%Z)) !! "tok0" = Some (Some "deliver")).
Proof. vm_compute. repeat split. Qed.

(** ** The payment confirmation of a ticket *)

Ltac run_payment :=
  unfold processPaymentConfirmation, updateFixedShoppingPanel, channel_delete_now;
  run_discord.

(** X3: when the payment channel cannot be fetched, has no topic, or its
    topic names no user id, [processPaymentConfirmation] answers a failure
    and does nothing but write a line to the error log: the store, the
    token map, the timers and Discord are as before. *)
Theorem payment_confirmation_fails_closed (env : Env) (channelId productId : string)
    (adminUser : DUser) (w : World) :
  (∀ c topic, payment_channel_with_topic env channelId = Some (c, topic) →
              match_digits_after "User: " topic = None) →
  let out := processPaymentConfirmation env channelId productId adminUser w in
  success <$> (match fst out with Ok r => Some r | Throw _ => None end) = Some false
  ∧ db (snd out) = db w
  ∧ discord (snd out) = discord w
  ∧ verificationTokens (snd out) = verificationTokens w
  ∧ timers (snd out) = timers w
  ∧ length (console (snd out)) = S (length (console w)).
Proof.
  intros Htopic out. subst out. unfold processPaymentConfirmation. run_handler.
  destruct (payment_channel_with_topic env channelId) as [[c topic]|] eqn:Hc; cbn.
  - rewrite (Htopic c topic eq_refl). cbn. rewrite length_app. cbn.
    repeat split; try reflexivity. lia.
  - rewrite length_app. cbn. repeat split; try reflexivity. lia.
Qed.

Lemma payment_confirmation_fails_closed_witness :
  let out := processPaymentConfirmation (discord_up true) "chan-pay" "CH12345" owner_user
               (quiet (stocked_shop 3) ∅ 1700000004000) in
  success <$> (match fst out with Ok r => Some r | Throw _ => None end) = Some false
  ∧ Product.stock <$> products (db (snd out)) = [3%Z].
Proof.
  intros out.
  destruct (payment_confirmation_fails_closed (discord_up true) "chan-pay" "CH12345"
              owner_user (quiet (stocked_shop 3) ∅ 1700000004000))
    as (Hfail & Hdb & _).
  { intros c topic Hc. discriminate Hc. }
  fold out in Hfail, Hdb. rewrite Hfail, Hdb. split; reflexivity.
Defined.

(** The notification of the owner writes no table but [audit_logs]. *)
Lemma sendDeliveryNotification_tables (env : Env) (context : Context) (w : World) :
  products (db (snd (sendDeliveryNotification env context w))) = products (db w)
  ∧ orders (db (snd (sendDeliveryNotification env context w))) = orders (db w)
  ∧ accounts (db (snd (sendDeliveryNotification env context w))) = accounts (db w)
  ∧ fixed_panel (db (snd (sendDeliveryNotification env context w))) = fixed_panel (db w).
Proof.
  unfold sendDeliveryNotification. run_discord. cbn.
  destruct (users_fetch env (OWNER_ID env)) as [owner|]; cbn; [|done].
  destruct (user_send env (user_id owner)); done.
Qed.

Lemma decreaseProductStock_row (productId : string) (d : Database) (i : nat) (p : Product.t) :
  products d !! i = Some p →
  products (decreaseProductStock productId d) !! i
  = Some (if bool_decide (Product.id p = productId) && (0 <? Product.stock p)%Z
          then decrement_stock p else p).
Proof.
  intros Hp. unfold decreaseProductStock, set_products. cbn [products].
  by rewrite sql_update_lookup, Hp.
Qed.

(** What a payment confirmation can do to the tables: the orders are
    untouched, and the products are as before or as one
    [decreaseProductStock] leaves them. *)
Lemma payment_confirmation_tables (env : Env) (channelId productId : string)
    (adminUser : DUser) (w : World) :
  let out := processPaymentConfirmation env channelId productId adminUser w in
  orders (db (snd out)) = orders (db w)
  ∧ (products (db (snd out)) = products (db w)
     ∨ products (db (snd out)) = products (decreaseProductStock productId (db w))).
Proof.
  intros out. subst out. run_payment.
  destruct (payment_channel_with_topic env channelId) as [[c topic]|]; cbn; [|by auto].
  destruct (match_digits_after "User: " topic) as [userId|]; cbn; [|by auto].
  destruct (users_fetch env userId) as [u|]; cbn; [|by auto].
  set (w1 := match getProductById productId (db w) with
             | Some p => if bool_decide (Product.stock p ≠ (-1)%Z)
                         then with_db (decreaseProductStock productId) w else w
             | None => w
             end).
  assert (orders (db w1) = orders (db w)
          ∧ (products (db w1) = products (db w)
             ∨ products (db w1) = products (decreaseProductStock productId (db w))))
    as [Ho1 Hp1].
  { subst w1. destruct (getProductById productId (db w)) as [p|]; [|by auto].
    case_bool_decide; by auto. }
  destruct (getProductById productId (db w)) as [p|]; cbn;
    [destruct (bool_decide (Product.stock p ≠ (-1)%Z)); cbn|];
    (destruct (channel_delete env (channel_id c)); cbn; [|by auto]);
    (destruct (fixed_panel (db w)) as [cfg|]; cbn; [|by auto]);
    (destruct (truthy (panelMessageId cfg) && truthy (panelChannelId cfg)); cbn;
     [destruct (panel_refresh env); cbn|]);
    (destruct (channels_create env _) as [chan|]; cbn; [|by auto]);
    (destruct (channel_send env chan); cbn; [|by auto]);
    match goal with
    | |- context [sendDeliveryNotification env ?k ?w2] =>
        destruct (sendDeliveryNotification_tables env k w2) as (Hp & Ho & _);
        destruct (sendDeliveryNotification env k w2) as [[[]|e] w3]
    end; cbn in Hp, Ho |- *; rewrite Hp, Ho; by auto.
Qed.

(** X4: a payment confirmation never takes more than one unit of stock and
    never takes it from a row without stock: whatever Discord answers and
    wherever the confirmation stops, a product row keeps every column but
    [stock], its stock is what it was or, for the confirmed product with a
    positive stock, one less; a stock of 0 or below (the unlimited -1
    included) is never changed; and no order is touched. *)
Theorem payment_confirmation_stock_guard (env : Env) (channelId productId : string)
    (adminUser : DUser) (w : World) (i : nat) (p : Product.t) :
  products (db w) !! i = Some p →
  let out := processPaymentConfirmation env channelId productId adminUser w in
  ∃ p', products (db (snd out)) !! i = Some p'
    ∧ Product.id p' = Product.id p ∧ Product.name p' = Product.name p
    ∧ Product.price p' = Product.price p
    ∧ Product.description p' = Product.description p
    ∧ Product.emoji p' = Product.emoji p
    ∧ (Product.stock p' = Product.stock p
       ∨ (Product.id p = productId ∧ (0 < Product.stock p)%Z
          ∧ Product.stock p' = (Product.stock p - 1)%Z))
    ∧ ((Product.stock p ≤ 0)%Z → p' = p)
    ∧ orders (db (snd out)) = orders (db w).
Proof.
  intros Hp out.
  destruct (payment_confirmation_tables env channelId productId adminUser w) as [Ho Hps].
  fold out in Ho, Hps. destruct Hps as [Hsame|Hdec].
  - exists p. rewrite Hsame. repeat split; auto.
  - rewrite Hdec, (decreaseProductStock_row productId (db w) i p Hp).
    eexists. split; [reflexivity|].
    destruct (bool_decide_reflect (Product.id p = productId)) as [Hid|Hid];
      destruct (Z.ltb_spec 0 (Product.stock p)) as [Hs|Hs]; cbn;
      repeat split; auto; intros; lia.
Qed.

Lemma payment_confirmation_stock_guard_witness :
  let out := processPaymentConfirmation discord_with_ticket "chan-pay" "CH12345" owner_user
               (quiet (stocked_shop 1) ∅ 1700000004000) in
  Product.stock <$> products (db (snd out)) !! 0 = Some 0%Z.
Proof.
  intros out.
  destruct (payment_confirmation_stock_guard discord_with_ticket "chan-pay" "CH12345" owner_user
              (quiet (stocked_shop 1) ∅ 1700000004000) 0
              (Product.mk "CH12345" "Chave Misteriosa" 1550 None None 1) eq_refl)
    as (p' & Hp' & _).
  fold out in Hp'. rewrite Hp'. vm_compute in Hp'. by injection Hp' as <-.
Defined.

(** X5: while [app_config] has no [fixed_panel] entry, a payment
    confirmation that gets as far as deleting the payment channel fails
    right after it, in [updateFixedShoppingPanel], on the missing
    configuration: the stock has been taken and the payment channel is
    gone, but no delivery channel is created and no delivery link is
    issued. *)
Theorem payment_confirmation_without_panel (env : Env) (channelId productId : string)
    (adminUser : DUser) (w : World) (c : Channel) (topic userId : string) (u : DUser) :
  payment_channel_with_topic env channelId = Some (c, topic) →
  match_digits_after "User: " topic = Some userId →
  users_fetch env userId = Some u →
  channel_delete env (channel_id c) = true →
  fixed_panel (db w) = None →
  let out := processPaymentConfirmation env channelId productId adminUser w in
  fst out = Throw (TypeError "Cannot read properties of null (reading 'panelMessageId')")
  ∧ discord (snd out)
    = discord w ++ [ChannelDelete (channel_id c)
                      "Pagamento confirmado. Criando canal de entrega."]
  ∧ verificationTokens (snd out) = verificationTokens w
  ∧ timers (snd out) = timers w
  ∧ products (db (snd out))
    = match getProductById productId (db w) with
      | Some p => if bool_decide (Product.stock p ≠ (-1)%Z)
                  then products (decreaseProductStock productId (db w))
                  else products (db w)
      | None => products (db w)
      end.
Proof.
  intros Hc Htopic Hu Hdel Hpanel out. subst out. run_payment.
  rewrite Hc. cbn. rewrite Htopic. cbn. rewrite Hu. cbn.
  destruct (getProductById productId (db w)) as [p|]; cbn;
    [destruct (bool_decide (Product.stock p ≠ (-1)%Z)); cbn|];
    rewrite Hdel; cbn; rewrite Hpanel; cbn; repeat split; reflexivity.
Qed.

Lemma payment_confirmation_without_panel_witness :
  let w := quiet (shop (site_order "analise" None (Some []))) ∅ 1700000004000 in
  let out := processPaymentConfirmation discord_with_ticket "chan-pay" "CH12345"
               owner_user w in
  fst out = Throw (TypeError "Cannot read properties of null (reading 'panelMessageId')")
  ∧ length (discord (snd out)) = 1
  ∧ verificationTokens (snd out) = ∅.
Proof.
  intros w out.
  destruct (payment_confirmation_without_panel discord_with_ticket "chan-pay" "CH12345"
              owner_user w
              {| channel_id := "chan-pay"; channel_name := "pagamento-buyer-3000";
                 channel_topic :=
                   Some "Ticket: pagamento-buyer-3000 | User: 100000000000004321 | ProductID: CH12345" |}
              "Ticket: pagamento-buyer-3000 | User: 100000000000004321 | ProductID: CH12345"
              "100000000000004321" buyer_user eq_refl eq_refl eq_refl eq_refl eq_refl)
    as (Hthrow & Hdiscord & Htok & _).
  fold out in Hthrow, Hdiscord, Htok. rewrite Hthrow, Hdiscord, Htok. repeat split.
Defined.

(** ** Issuing and resolving links *)



(** ** Approving a site order *)



(** ** Every token has its eviction timer *)

Section KeepsTimers.
Context (env : Env).

Lemma keeps_ret {A} (a : A) : keeps_timers (ret a).
Proof. by intros w Hw. Qed.

Lemma keeps_throw {A} (e : JsError) : keeps_timers (@throw A e).
Proof. by intros w Hw. Qed.

Lemma keeps_read {A} (f : World → A) : keeps_timers (read f).
Proof. by intros w Hw. Qed.

Lemma keeps_bind {A B} (c : M A) (k : A → M B) :
  keeps_timers c → (∀ a, keeps_timers (k a)) → keeps_timers (bind c k).
Proof.
  intros Hc Hk w Hw. unfold bind. specialize (Hc w Hw).
  destruct (c w) as [[a|e] w']; cbn in Hc |- *; [by apply Hk | done].
Qed.

Lemma keeps_try_catch {A} (c : M A) (h : JsError → M A) :
  keeps_timers c → (∀ e, keeps_timers (h e)) → keeps_timers (try_catch c h).
Proof.
  intros Hc Hh w Hw. unfold try_catch. specialize (Hc w Hw).
  destruct (c w) as [[a|e] w']; cbn in Hc |- *; [done | by apply Hh].
Qed.

(** An effect that leaves the token map alone and only adds timers. *)
Lemma keeps_effect (f : World → World) :
  (∀ w, verificationTokens (f w) = verificationTokens w
        ∧ ∃ more, timers (f w) = timers w ++ more) →
  keeps_timers (effect f).
Proof.
  intros Hf w Hw id Hid. cbn in Hid |- *.
  destruct (Hf w) as [Htok [more Htim]]. rewrite Htok in Hid. rewrite Htim.
  destruct (Hw id Hid) as [due Hdue]. exists due. apply elem_of_app. by left.
Qed.

Lemma keeps_setTimeout (a : TimerAction) (delay : Z) : keeps_timers (setTimeout a delay).
Proof.
  intros w Hw id Hid. cbn in Hid |- *.
  destruct (Hw id Hid) as [due Hdue]. exists due. apply elem_of_app. by left.
Qed.

Lemma keeps_delete_token (id : string) : keeps_timers (effect (with_tokens (delete id))).
Proof.
  intros w Hw id' Hid'. cbn in Hid' |- *. apply Hw.
  destruct (decide (id = id')) as [->|Hne].
  - rewrite lookup_delete_eq in Hid'. by destruct Hid'.
  - by rewrite lookup_delete_ne in Hid'.
Qed.

Lemma keeps_sendDeliveryNotification (context : Context) :
  keeps_timers (sendDeliveryNotification env context).
Proof.
  intros w Hw id Hid.
  assert (∃ more, timers (snd (sendDeliveryNotification env context w))
                  = timers w ++ (now w + TOKEN_TTL, DeleteToken (randomBytes env (entropy w)))%Z
                                  :: more
          ∧ verificationTokens (snd (sendDeliveryNotification env context w))
            = <[randomBytes env (entropy w) :=
                  {| tok_action := Some "deliver"; tok_context := context;
                     tok_details := match context_productName context with
                                    | Some n => [("productName", n)]
                                    | None => []
                                    end |}]> (verificationTokens w))
    as (more & Htim & Htok).
  { exists []. unfold sendDeliveryNotification. run_discord. cbn.
    destruct (users_fetch env (OWNER_ID env)) as [owner|]; cbn; [|done].
    destruct (user_send env (user_id owner)); done. }
  rewrite Htim. rewrite Htok in Hid.
  destruct (decide (randomBytes env (entropy w) = id)) as [<-|Hne].
  - eexists. apply elem_of_app. right. apply list_elem_of_here.
  - rewrite lookup_insert_ne in Hid by done.
    destruct (Hw id Hid) as [due Hdue]. exists due. apply elem_of_app. by left.
Qed.

Ltac keeps_step :=
  first
    [ apply keeps_ret | apply keeps_throw | apply keeps_read
    | apply keeps_setTimeout | apply keeps_sendDeliveryNotification
    | apply keeps_bind; [|intros ?]
    | apply keeps_try_catch; [|intros ?]
    | apply keeps_effect; intros ?;
      split; [reflexivity | exists []; cbn; by rewrite app_nil_r]
    | match goal with
      | |- keeps_timers (match ?x with _ => _ end) => destruct x
      | |- keeps_timers (if ?b then _ else _) => destruct b
      end ].

Ltac keeps :=
  unfold client_guilds_fetch, client_users_fetch, client_channels_fetch, user_send_dm,
    channel_send_text, channel_delete_now, guild_channels_create, or_null, logAuditEvent,
    db_updateOrderStatus, console_error, console_log, mbind, M_bind, mret, M_ret;
  repeat keeps_step.

Lemma keeps_updateFixedShoppingPanel : keeps_timers (updateFixedShoppingPanel env).
Proof. unfold updateFixedShoppingPanel. keeps. Qed.

Lemma keeps_processPaymentConfirmation (channelId productId : string) (adminUser : DUser) :
  keeps_timers (processPaymentConfirmation env channelId productId adminUser).
Proof.
  unfold processPaymentConfirmation.
  destruct (payment_channel_with_topic env channelId) as [[c topic]|]; [|keeps].
  destruct (match_digits_after "User: " topic) as [userId|]; [|keeps].
  keeps; apply keeps_updateFixedShoppingPanel.
Qed.

Lemma keeps_processVerificationAction (action : option string) (context : Context) :
  keeps_timers (processVerificationAction env action context).
Proof.
  unfold processVerificationAction.
  destruct context as [channelId userId productId productName
                      |orderId userId productId productName].
  - keeps; apply keeps_processPaymentConfirmation.
  - keeps.
Qed.

Lemma elem_of_delete_other {A} (l : list A) (k : nat) (x y : A) :
  x ∈ l → l !! k = Some y → x ≠ y → x ∈ delete k l.
Proof.
  intros Hx Hk Hne. apply list_elem_of_lookup in Hx as [j Hj].
  apply list_elem_of_lookup.
  destruct (decide (j < k)) as [Hlt|Hge].
  - exists j. by rewrite list_lookup_delete_lt.
  - assert (j ≠ k) by (intros ->; congruence).
    exists (pred j). rewrite list_lookup_delete_ge by lia.
    by replace (S (pred j)) with j by lia.
Qed.

Lemma step_keeps_timers (e : Event) (s : Server) :
  tokens_have_timers (world s) → tokens_have_timers (world (step env e s)).
Proof.
  intros Hs. destruct e as [verificationId action|k|dt|k]; cbn [step].
  - by destruct (post_verify_action_begin _ _ _).
  - destruct (inflight s !! k) as [p|]; [|done].
    assert (keeps_timers (post_verify_action_resume env p)) as Hkeep.
    { unfold post_verify_action_resume. unfold mbind, M_bind, mret, M_ret.
      apply keeps_bind; [apply keeps_processVerificationAction|intros result].
      apply keeps_bind; [apply keeps_delete_token|intros _]. apply keeps_ret. }
    specialize (Hkeep (world s) Hs).
    by destruct (post_verify_action_resume env p (world s)) as [[r|e] w'].
  - done.
  - destruct (timers (world s) !! k) as [[due a]|] eqn:Hk; [|done].
    destruct (due <=? now (world s))%Z; [|done].
    assert (tokens_have_timers (snd (run_timer_action env a
                                       (with_timers (delete k) (world s))))) as Hfired.
    { intros id Hid. destruct a as [gone|channelId reason]; cbn in Hid |- *.
      - destruct (decide (gone = id)) as [->|Hne].
        + rewrite lookup_delete_eq in Hid. by destruct Hid.
        + rewrite lookup_delete_ne in Hid by done.
          destruct (Hs id Hid) as [due' Hdue']. exists due'.
          eapply elem_of_delete_other; [done..|congruence].
      - assert (is_Some (verificationTokens (world s) !! id)) as Hid'.
        { by destruct (channel_delete env channelId). }
        destruct (Hs id Hid') as [due' Hdue'].
        exists due'. destruct (channel_delete env channelId); cbn;
          (eapply elem_of_delete_other; [done..|congruence]). }
    by destruct (run_timer_action env a _) as [[r|e] w'].
Qed.

(** X9: in every state that the event loop reaches from one in which each
    token has its eviction timer, each token has its eviction timer: no
    sequence of link POSTs, resumed handlers, clock advances and timer
    callbacks leaves a token in the map that no timer will delete. *)
Theorem tokens_always_have_timers (events : list Event) (s : Server) :
  tokens_have_timers (world s) → tokens_have_timers (world (run env events s)).
Proof.
  revert s. induction events as [|e events IH]; intros s Hs; [done|].
  unfold run in *. cbn [foldl]. apply IH. by apply step_keeps_timers.
Qed.

End KeepsTimers.

Lemma tokens_always_have_timers_witness :
  let token :=
    {| tok_action := None;
       tok_context := SiteCtx "order-site-1700000000000" "100000000000004321"
                        (Some "CH12345") None;
       tok_details := [] |} in
  let w := {| db := shop (site_order "pending_approval" None (Some []));
              verificationTokens := {[ "9f86d081884c7d65" := token ]};
              timers := [(1700006600000%Z, DeleteToken "9f86d081884c7d65")];
              now := 1700003000000; entropy := 0; discord := []; emitted := [];
              console := [] |} in
  let s := run (discord_up true)
             [PostVerifyAction "9f86d081884c7d65" (Some "approve"); Resume 0] (idle w) in
  ∃ due, (due, DeleteToken "tok0") ∈ timers (world s).
Proof.
  intros token w s.
  apply (tokens_always_have_timers (discord_up true)
           [PostVerifyAction "9f86d081884c7d65" (Some "approve"); Resume 0] (idle w)).
  - intros id [tok Hid]. exists 1700006600000%Z.
    destruct (decide (id = "9f86d081884c7d65")) as [->|Hne].
    + apply list_elem_of_here.
    + cbn in Hid. by rewrite lookup_singleton_ne in Hid.
  - by eexists.
Defined.

(** ** Channel topics *)

Example site_chat_topic_names_the_order :
  match_nonspace_after "OrderID: "
    (site_chat_topic "order-site-1700000000000" "100000000000004321")
  = Some "order-site-1700000000000".
Proof. reflexivity. Qed.

Example no_break_space_ends_the_order_id :
  match_nonspace_after "OrderID: "
    ("Chat do Pedido do Site | OrderID: abc"
       +:+ String (ascii_of_nat 194) (String (ascii_of_nat 160) "def"))
  = Some "abc".
Proof. reflexivity. Qed.

(** A ticket id that itself reads like a user field is taken for the
    user: the first match wins. *)
Example ticket_id_can_shadow_the_user :
  match_digits_after "User: "
    (payment_channel_topic "pagamento-User: 12-3000" "100000000000004321" "CH12345")
  = Some "12".
Proof. reflexivity. Qed.

Lemma match_digits_skip (c : ascii) (p pre rest : string) :
  string_has c pre = false →
  match_digits_after (String c p) (pre +:+ rest) = match_digits_after (String c p) rest.
Proof.
  induction pre as [|a pre IH]; intros Hno; [reflexivity|].
  cbn in Hno. apply orb_false_elim in Hno as [Ha Hpre].
  apply bool_decide_eq_false in Ha.
  change (String a pre +:+ rest) with (String a (pre +:+ rest)).
  cbn [match_digits_after]. unfold digits_here. cbn [strip_prefix].
  rewrite bool_decide_eq_false_2 by congruence. by apply IH.
Qed.

Lemma take_digits_app (u rest : string) (c : ascii) :
  all_digits u = true → is_digit c = false →
  take_digits (u +:+ String c rest) = u.
Proof.
  intros Hu Hc. induction u as [|a u IH].
  - change (EmptyString +:+ String c rest) with (String c rest).
    cbn [take_digits]. by rewrite Hc.
  - cbn [all_digits] in Hu. apply andb_prop in Hu as [Ha Hu].
    change (String a u +:+ String c rest) with (String a (u +:+ String c rest)).
    cbn [take_digits]. rewrite Ha. f_equal. by apply IH.
Qed.

(** X10: the topic that the select-menu handler writes on a payment
    channel is read back by [processPaymentConfirmation] and by the proof
    detection as the buyer's id, when that id is a run of digits and the
    ticket id holds no capital U. *)
Theorem payment_topic_round_trip (ticketId userId productId : string) :
  string_has "U" ticketId = false →
  all_digits userId = true →
  userId ≠ "" →
  match_digits_after "User: " (payment_channel_topic ticketId userId productId)
  = Some userId.
Proof.
  intros Hticket Hdigits Hne. unfold payment_channel_topic.
  rewrite (match_digits_skip "U" "ser: " "Ticket: ") by reflexivity.
  rewrite (match_digits_skip "U" "ser: " ticketId) by exact Hticket.
  change (" | User: " +:+ userId +:+ " | ProductID: " +:+ productId)
    with (" | " +:+ "User: " +:+ userId +:+ " | ProductID: " +:+ productId).
  rewrite (match_digits_skip "U" "ser: " " | ") by reflexivity.
  change ("User: " +:+ userId +:+ " | ProductID: " +:+ productId)
    with (String "U" ("ser: " +:+ userId +:+ " | ProductID: " +:+ productId)).
  cbn [match_digits_after]. unfold digits_here.
  change (strip_prefix "User: "
            (String "U" ("ser: " +:+ userId +:+ " | ProductID: " +:+ productId)))
    with (Some (userId +:+ " | ProductID: " +:+ productId)).
  change (" | ProductID: " +:+ productId) with (String " " ("| ProductID: " +:+ productId)).
  cbv beta iota. rewrite take_digits_app by done.
  destruct userId; [done|reflexivity].
Qed.

Lemma payment_topic_round_trip_witness :
  match_digits_after "User: "
    (payment_channel_topic "pagamento-buyer-3000" "100000000000004321" "CH12345")
  = Some "100000000000004321".
Proof.
  apply payment_topic_round_trip; [reflexivity | reflexivity | discriminate].
Defined.







(** ** The order pages *)

Lemma getOrderById_Some (orderId userId : string) (d : Database) (o : Order.t) :
  getOrderById orderId userId d = Some o →
  o ∈ orders d ∧ Order.id o = orderId ∧ Order.userId o = userId.
Proof.
  unfold getOrderById, sql_select_first. intros Hhead.
  apply head_Some_elem_of, list_elem_of_filter in Hhead as [Hcond Ho].
  apply andb_prop in Hcond as [Hid Hu].
  apply bool_decide_eq_true in Hid. apply bool_decide_eq_true in Hu. done.
Qed.

Lemma getOrderById_None (orderId userId : string) (d : Database) :
  (∀ o, o ∈ orders d → Order.id o = orderId → Order.userId o ≠ userId) →
  getOrderById orderId userId d = None.
Proof.
  intros Hnone. destruct (getOrderById orderId userId d) as [o|] eqn:Ho; [|done].
  apply getOrderById_Some in Ho as (Hin & Hid & Hu). by destruct (Hnone o Hin Hid).
Qed.

(** X12: the status, chat and payment pages of an order exist for its
    owner only: when no row of that id belongs to the logged-in user, the
    status route answers 404 [not_found], the chat route 403 and the payment
    page 404, and none of the three changes anything. *)
Theorem order_pages_are_owner_only (discordUser : SessionUser) (orderId : string)
    (w : World) :
  (∀ o, o ∈ orders (db w) → Order.id o = orderId →
        Order.userId o ≠ su_id discordUser) →
  get_order_status (Some discordUser) orderId w = (Ok (Json 404 "not_found"), w)
  ∧ get_order_chat (Some discordUser) orderId w
    = (Ok (Respond (SendStatus 403
             "Acesso negado. O pedido não foi encontrado ou não está aprovado.")), w)
  ∧ get_order_awaiting_payment (Some discordUser) orderId w
    = (Ok (Respond (SendStatus 404 "Pedido não encontrado.")), w).
Proof.
  intros Hnone. apply getOrderById_None in Hnone.
  unfold get_order_status, get_order_chat, get_order_awaiting_payment. run_handler.
  by rewrite Hnone.
Qed.

Lemma order_pages_are_owner_only_witness :
  fst (get_order_status (Some {| su_id := "666000000000000666"; su_username := "stranger" |})
         "order-site-1700000000000"
         (quiet (shop (site_order "approved" (Some "chan-1") (Some []))) ∅ 1700000007000))
  = Ok (Json 404 "not_found").
Proof.
  destruct (order_pages_are_owner_only
              {| su_id := "666000000000000666"; su_username := "stranger" |}
              "order-site-1700000000000"
              (quiet (shop (site_order "approved" (Some "chan-1") (Some []))) ∅
                 1700000007000)) as (Hstatus & _).
  - intros o Ho _. apply list_elem_of_singleton in Ho as ->. discriminate.
  - by rewrite Hstatus.
Defined.

(** X13: what the order pages show is a row of the logged-in user. The
    chat page is rendered only for an order of that user whose status is
    ['approved'] or ['entregue'], with the stored transcript (empty when the
    column is NULL); a status is reported only from a row of that user; and
    both routes leave everything as it was. *)
Theorem order_pages_show_own_rows (discordUser : SessionUser) (orderId : string)
    (w : World) :
  (∀ order user messages,
     fst (get_order_chat (Some discordUser) orderId w)
       = Ok (RenderOrderChat order user messages) →
     order ∈ orders (db w) ∧ Order.id order = orderId
     ∧ Order.userId order = su_id discordUser
     ∧ (Order.status order = "approved" ∨ Order.status order = "entregue")
     ∧ user = discordUser ∧ messages = transcript order)
  ∧ (∀ status,
       fst (get_order_status (Some discordUser) orderId w) = Ok (Json 200 status) →
       ∃ order, order ∈ orders (db w) ∧ Order.id order = orderId
                ∧ Order.userId order = su_id discordUser
                ∧ Order.status order = status)
  ∧ snd (get_order_chat (Some discordUser) orderId w) = w
  ∧ snd (get_order_status (Some discordUser) orderId w) = w.
Proof.
  unfold get_order_chat, get_order_status. run_handler. cbn.
  destruct (getOrderById orderId (su_id discordUser) (db w)) as [o|] eqn:Ho.
  - apply getOrderById_Some in Ho as (Hin & Hid & Hu).
    split; [|split; [|split]].
    + intros order user messages Hr.
      destruct (bool_decide_reflect (Order.status o ≠ "approved")) as [Ha|Ha];
        destruct (bool_decide_reflect (Order.status o ≠ "entregue")) as [He|He];
        cbn in Hr; simplify_eq.
      * do 3 (split; [done|]). split; [right; by apply dec_stable|done].
      * do 3 (split; [done|]). split; [left; by apply dec_stable|done].
      * do 3 (split; [done|]). split; [left; by apply dec_stable|done].
    + intros status [= <-]. by exists o.
    + by destruct (bool_decide _ && bool_decide _).
    + reflexivity.
  - split; [|split; [|split]]; try reflexivity; intros; simplify_eq.
Qed.

Lemma order_pages_show_own_rows_witness :
  let w := quiet (shop (site_order "approved" (Some "chan-1") None)) ∅ 1700000007000 in
  let buyer := {| su_id := "100000000000004321"; su_username := "buyer" |} in
  fst (get_order_chat (Some buyer) "order-site-1700000000000" w)
    = Ok (RenderOrderChat (site_order "approved" (Some "chan-1") None) buyer [])
  ∧ Order.userId (site_order "approved" (Some "chan-1") None) = su_id buyer.
Proof.
  intros w buyer. split; [reflexivity|].
  destruct (order_pages_show_own_rows buyer "order-site-1700000000000" w) as (Hchat & _).
  by destruct (Hchat (site_order "approved" (Some "chan-1") None) buyer [] eq_refl)
    as (_ & _ & Hu & _).
Defined.

(** ** The upload of a receipt *)

Section UploadProperties.
Context (env : Env) (cloudinary_upload : string → option string)
  (show_price : option Z → string).

(** X14: the upload of a receipt by the owner of the order. Once the
    image is stored, every row of the order gets the status
    ['pending_approval'] and the image URL, whatever its status was; a
    proof-review link for the order (site context, no preset action) is
    issued under a fresh id with its eviction timer; and the browser is sent
    to the payment page. *)
Theorem upload_by_the_owner (discordUser : SessionUser) (orderId url : string)
    (order : Order.t) (w : World) :
  getOrderById orderId (su_id discordUser) (db w) = Some order →
  cloudinary_upload orderId = Some url →
  url ≠ "" →
  let out := post_order_upload env cloudinary_upload show_price (Some discordUser) true
               orderId w in
  fst out = Ok (Redirect ("/order/awaiting-payment/" +:+ orderId
                            +:+ "?status=pending_approval"))
  ∧ (∀ i o, orders (db w) !! i = Some o → Order.id o = orderId →
       ∃ o', orders (db (snd out)) !! i = Some o'
         ∧ Order.status o' = "pending_approval" ∧ Order.receiptUrl o' = Some url
         ∧ Order.ticketChannelId o' = Order.ticketChannelId o
         ∧ Order.messages o' = Order.messages o)
  ∧ (∃ details,
       verificationTokens (snd out) !! randomBytes env (entropy w)
       = Some {| tok_action := None;
                 tok_context := SiteCtx orderId (su_id discordUser)
                                  (Order.productId order) None;
                 tok_details := details |}
       ∧ ("imageUrl", url) ∈ details)
  ∧ timers (snd out)
    = timers w ++ [((now w + 3600000)%Z, DeleteToken (randomBytes env (entropy w)))].
Proof.
  intros Horder Hurl Hne out.
  assert (truthy (Some url) = true) as Htruthy.
  { unfold truthy. by rewrite bool_decide_eq_false_2. }
  subst out. unfold post_order_upload, sendProofForVerification. run_discord. cbn.
  rewrite Horder, Hurl. cbn.
  assert (∀ i o, orders (db w) !! i = Some o → Order.id o = orderId →
            ∃ o', orders (snd (updateOrderStatus orderId "pending_approval"
                     {| extra_receiptUrl := Some url; extra_ticketChannelId := None |}
                     (db w))) !! i = Some o'
              ∧ Order.status o' = "pending_approval" ∧ Order.receiptUrl o' = Some url
              ∧ Order.ticketChannelId o' = Order.ticketChannelId o
              ∧ Order.messages o' = Order.messages o) as Hrows.
  { intros i o Ho Hid. unfold updateOrderStatus, set_orders. cbn [snd orders].
    rewrite sql_update_lookup, Ho. cbn [fmap option_fmap option_map].
    rewrite bool_decide_eq_true_2 by done.
    eexists. split; [reflexivity|]. unfold write_status.
    cbn [extra_ticketChannelId extra_receiptUrl Order.status Order.ticketChannelId
         Order.messages Order.receiptUrl].
    by rewrite Htruthy. }
  destruct (users_fetch env (OWNER_ID env)) as [owner|]; cbn;
    [destruct (user_send env (user_id owner)); cbn|];
    (split; [reflexivity|]; split; [exact Hrows|]; split; [|reflexivity];
     eexists; rewrite lookup_insert_eq; split; [reflexivity|];
     do 4 apply list_elem_of_further; apply list_elem_of_here).
Qed.

(** X15: the upload writes before it looks at whose order it is. When
    the logged-in user owns no row of that id and the image is stored, the
    rows of that id still get the status ['pending_approval'] and the image
    URL; the handler then fails on the missing order, answers 500, and
    issues no link. When the image cannot be stored, nothing is written. *)
Theorem upload_by_a_stranger (discordUser : SessionUser) (orderId : string) (w : World) :
  getOrderById orderId (su_id discordUser) (db w) = None →
  let out := post_order_upload env cloudinary_upload show_price (Some discordUser) true
               orderId w in
  fst out = Ok (SendStatus 500 "Erro ao processar o comprovante.")
  ∧ verificationTokens (snd out) = verificationTokens w
  ∧ timers (snd out) = timers w
  ∧ discord (snd out) = discord w
  ∧ (cloudinary_upload orderId = None → db (snd out) = db w)
  ∧ (∀ url, cloudinary_upload orderId = Some url → url ≠ "" →
       ∀ i o, orders (db w) !! i = Some o → Order.id o = orderId →
         ∃ o', orders (db (snd out)) !! i = Some o'
           ∧ Order.status o' = "pending_approval" ∧ Order.receiptUrl o' = Some url
           ∧ Order.userId o' = Order.userId o).
Proof.
  intros Horder out. subst out. unfold post_order_upload. run_discord. cbn.
  rewrite Horder.
  destruct (cloudinary_upload orderId) as [url|]; cbn.
  - do 4 (split; [reflexivity|]). split; [done|].
    intros url' [= <-] Hne i o Ho Hid.
    assert (truthy (Some url) = true) as Htruthy.
    { unfold truthy. by rewrite bool_decide_eq_false_2. }
    unfold updateOrderStatus, set_orders. cbn [snd orders].
    rewrite sql_update_lookup, Ho. cbn [fmap option_fmap option_map].
    rewrite bool_decide_eq_true_2 by done.
    eexists. split; [reflexivity|]. unfold write_status.
    cbn [extra_ticketChannelId extra_receiptUrl Order.status Order.userId
         Order.receiptUrl].
    by rewrite Htruthy.
  - do 5 (split; [reflexivity|]). intros url' [=].
Qed.

End UploadProperties.

Lemma upload_by_the_owner_witness :
  let w := quiet (shop (site_order "entregue" (Some "chan-1") (Some []))) ∅ 1700000008000 in
  let out := post_order_upload (discord_up true) (λ id, Some ("https://img.example/" +:+ id))
               (λ _, "N/A") (Some {| su_id := "100000000000004321"; su_username := "buyer" |})
               true "order-site-1700000000000" w in
  (λ o, (Order.status o, Order.receiptUrl o)) <$> orders (db (snd out)) !! 0
    = Some ("pending_approval", Some "https://img.example/order-site-1700000000000").
Proof.
  intros w out.
  destruct (upload_by_the_owner (discord_up true)
              (λ id, Some ("https://img.example/" +:+ id)) (λ _, "N/A")
              {| su_id := "100000000000004321"; su_username := "buyer" |}
              "order-site-1700000000000" "https://img.example/order-site-1700000000000"
              (site_order "entregue" (Some "chan-1") (Some [])) w eq_refl eq_refl)
    as (_ & Hrows & _).
  { discriminate. }
  fold out in Hrows.
  destruct (Hrows 0 _ eq_refl eq_refl) as (o' & Ho' & Hs & Hr & _).
  rewrite Ho'. cbn. by rewrite Hs, Hr.
Defined.

Lemma upload_by_a_stranger_witness :
  let w := quiet (shop (site_order "approved" (Some "chan-1") (Some []))) ∅ 1700000008000 in
  let out := post_order_upload (discord_up true) (λ id, Some ("https://img.example/" +:+ id))
               (λ _, "N/A")
               (Some {| su_id := "666000000000000666"; su_username := "stranger" |})
               true "order-site-1700000000000" w in
  fst out = Ok (SendStatus 500 "Erro ao processar o comprovante.")
  ∧ (λ o, (Order.userId o, Order.status o)) <$> orders (db (snd out)) !! 0
    = Some ("100000000000004321", "pending_approval").
Proof.
  intros w out.
  destruct (upload_by_a_stranger (discord_up true)
              (λ id, Some ("https://img.example/" +:+ id)) (λ _, "N/A")
              {| su_id := "666000000000000666"; su_username := "stranger" |}
              "order-site-1700000000000" w eq_refl)
    as (Hfail & _ & _ & _ & _ & Hrows).
  fold out in Hfail, Hrows. split; [exact Hfail|].
  destruct (Hrows "https://img.example/order-site-1700000000000" eq_refl
              ltac:(discriminate) 0 _ eq_refl eq_refl) as (o' & Ho' & Hs & _ & Hu).
  rewrite Ho'. cbn. by rewrite Hs, Hu.
Defined.

(** ** Accounts, products and new orders in the store *)

Lemma sql_select_first_update {A} (cond : A → bool) (upd : A → A) (rows : list A) :
  (∀ r, cond (upd r) = cond r) →
  sql_select_first cond (sql_update cond upd rows) = upd <$> sql_select_first cond rows.
Proof.
  intros Hkeep. unfold sql_select_first, sql_update.
  induction rows as [|r rows IH]; [done|].
  rewrite fmap_cons, !filter_cons.
  destruct (cond r) eqn:Hr.
  - rewrite decide_True by (by rewrite Hkeep). by rewrite decide_True.
  - rewrite decide_False by (cbn; by rewrite Hr). by rewrite decide_False.
Qed.

Lemma sql_update_ids {A} (cond : A → bool) (upd : A → A) (key : A → string)
    (rows : list A) :
  (∀ r, key (upd r) = key r) → key <$> sql_update cond upd rows = key <$> rows.
Proof.
  intros Hkey. unfold sql_update. rewrite <- list_fmap_compose.
  apply list_fmap_ext. intros i r _. cbn. by destruct (cond r).
Qed.

Lemma findAccount_None (id : string) (d : Database) :
  findAccount id d = None → id ∉ Account.id <$> accounts d.
Proof.
  unfold findAccount, sql_select_first. intros Hnone Hin.
  apply list_elem_of_fmap in Hin as (a & -> & Ha).
  destruct (filter _ (accounts d)) as [|x l] eqn:Hf; [|done].
  apply (filter_nil_not_elem_of _ _ a Hf); [|done]. by rewrite bool_decide_eq_true_2.
Qed.

(** X16: [findOrCreateAccount] is an upsert on the user's id. Afterwards
    the account of that id carries the user's current name and avatar; an
    account that existed keeps its discriminator and its verification time,
    the row handed back for it is the one read before the update, and the
    list of account ids is unchanged; an account that did not exist is
    appended, verified at the time of the call, and handed back. Distinct
    ids stay distinct, and no other account, order or product changes. *)
Theorem findOrCreateAccount_upsert (discordUser : DiscordProfile) (w : World) :
  let out := findOrCreateAccount discordUser w in
  let id := profile_id discordUser in
  (∃ row, findAccount id (db (snd out)) = Some row
     ∧ Account.id row = id
     ∧ Account.username row = profile_username discordUser
     ∧ Account.avatar row = profile_avatar discordUser
     ∧ match findAccount id (db w) with
       | Some old =>
           fst out = Ok old
           ∧ Account.discriminator row = Account.discriminator old
           ∧ Account.verifiedAt row = Account.verifiedAt old
           ∧ Account.id <$> accounts (db (snd out)) = Account.id <$> accounts (db w)
       | None =>
           fst out = Ok row
           ∧ Account.discriminator row = profile_discriminator discordUser
           ∧ Account.verifiedAt row = Some (now w)
           ∧ accounts (db (snd out)) = accounts (db w) ++ [row]
       end)
  ∧ (NoDup (Account.id <$> accounts (db w)) →
     NoDup (Account.id <$> accounts (db (snd out))))
  ∧ (∀ a, a ∈ accounts (db w) → Account.id a ≠ id → a ∈ accounts (db (snd out)))
  ∧ orders (db (snd out)) = orders (db w)
  ∧ products (db (snd out)) = products (db w).
Proof.
  intros out id. subst out id. unfold findOrCreateAccount.
  destruct (findAccount (profile_id discordUser) (db w)) as [old|] eqn:Hold;
    cbn [fst snd db with_db set_accounts accounts orders products].
  - assert (Account.id old = profile_id discordUser) as Hid.
    { unfold findAccount, sql_select_first in Hold.
      apply head_Some_elem_of, list_elem_of_filter in Hold as [Hc _].
      by apply bool_decide_eq_true in Hc. }
    split; [|split; [|split; [|done]]].
    + exists (refresh_account discordUser old). unfold findAccount.
      cbn [db with_db set_accounts accounts].
      rewrite sql_select_first_update by done.
      unfold findAccount in Hold. rewrite Hold. cbn.
      repeat (split; [done|]). by apply sql_update_ids.
    + by rewrite sql_update_ids.
    + intros a Ha Hne. unfold sql_update. apply list_elem_of_fmap. exists a.
      split; [|done]. by rewrite bool_decide_eq_false_2.
  - pose proof (findAccount_None _ _ Hold) as Hfresh.
    split; [|split; [|split; [|done]]].
    + eexists. split; [|repeat split; reflexivity].
      unfold findAccount, sql_select_first in *.
      cbn [db with_db set_accounts accounts]. rewrite filter_app.
      destruct (filter _ (accounts (db w))) as [|x l]; [|done].
      rewrite app_nil_l, filter_cons.
      by rewrite decide_True by (by rewrite bool_decide_eq_true_2).
    + intros Hnodup. rewrite fmap_app. apply NoDup_app. split; [done|]. split.
      * intros x Hx Hin. apply list_elem_of_singleton in Hin as ->. done.
      * apply NoDup_singleton.
    + intros a Ha _. apply elem_of_app. by left.
Qed.

(** X17: [deleteProduct] against the orders. While an order references
    the product, the deletion is refused and nothing changes. Otherwise the
    product is no longer found afterwards, every other product is found as
    before, and no order is touched. *)
Theorem deleteProduct_respects_orders (productId : string) (w : World) :
  (Some productId ∈ Order.productId <$> orders (db w) →
   deleteProduct productId w = (Throw (DatabaseError "orders_productId_fkey"), w))
  ∧ (Some productId ∉ Order.productId <$> orders (db w) →
     let out := deleteProduct productId w in
     fst out = Ok tt
     ∧ getProductById productId (db (snd out)) = None
     ∧ (∀ other, other ≠ productId →
          getProductById other (db (snd out)) = getProductById other (db w))
     ∧ orders (db (snd out)) = orders (db w)).
Proof.
  unfold deleteProduct. split; intros Href.
  - by rewrite bool_decide_eq_true_2.
  - rewrite bool_decide_eq_false_2 by done.
    cbn [fst snd db with_db set_products products orders].
    split; [done|]. split; [|split; [|done]].
    + unfold getProductById, sql_select_first, set_products. cbn [products].
      rewrite list_filter_filter.
      destruct (filter _ (products (db w))) as [|p l] eqn:Hf; [done|].
      assert (p ∈ filter (λ a, bool_decide (Product.id a = productId) = true
                               ∧ Product.id a ≠ productId) (products (db w))) as Hp.
      { rewrite Hf. apply list_elem_of_here. }
      apply list_elem_of_filter in Hp as [[Heq Hne] _].
      by apply bool_decide_eq_true in Heq.
    + intros other Hne. unfold getProductById, sql_select_first, set_products.
      cbn [products]. rewrite list_filter_filter_l; [done|].
      intros p Hp. apply bool_decide_eq_true in Hp. congruence.
Qed.

Lemma deleteProduct_respects_orders_witness :
  deleteProduct "CH12345" (quiet (shop (site_order "analise" None (Some []))) ∅ 0)
  = (Throw (DatabaseError "orders_productId_fkey"),
     quiet (shop (site_order "analise" None (Some []))) ∅ 0).
Proof.
  apply (proj1 (deleteProduct_respects_orders "CH12345"
                  (quiet (shop (site_order "analise" None (Some []))) ∅ 0))).
  apply list_elem_of_here.
Defined.

Lemma filter_none {A} (P : A → Prop) `{!∀ x, Decision (P x)} (l : list A) :
  (∀ x, x ∈ l → ¬ P x) → filter P l = [].
Proof.
  induction l as [|a l IH]; intros Hno; [done|].
  rewrite filter_cons_False by (apply Hno; left).
  apply IH. intros x Hx. apply Hno. by right.
Qed.

(** X18: [createOrder] and the lookup by owner. An order whose id is
    already taken is refused and nothing changes. After an insert that
    went through, [getOrderById] hands the new order (given without receipt
    and channel and with a transcript, which are the columns the INSERT
    fills) to its owner and to nobody else, its buyer is an account and its
    product, if it names one, a product of the store, and the lookups of
    every other order id answer as before. *)
Theorem createOrder_round_trip (orderData : Order.t) (w : World) :
  (Order.id orderData ∈ Order.id <$> orders (db w) →
   createOrder orderData w = (Throw (DatabaseError "orders_pkey"), w))
  ∧ (∀ w', createOrder orderData w = (Ok tt, w') →
       (Order.receiptUrl orderData = None → Order.ticketChannelId orderData = None →
        is_Some (Order.messages orderData) →
        getOrderById (Order.id orderData) (Order.userId orderData) (db w')
        = Some orderData)
       ∧ (∀ userId, userId ≠ Order.userId orderData →
            getOrderById (Order.id orderData) userId (db w') = None)
       ∧ (∀ orderId userId, orderId ≠ Order.id orderData →
            getOrderById orderId userId (db w') = getOrderById orderId userId (db w))
       ∧ Order.userId orderData ∈ Account.id <$> accounts (db w')
       ∧ (∀ productId, Order.productId orderData = Some productId →
            productId ∈ Product.id <$> products (db w'))
       ∧ products (db w') = products (db w)).
Proof.
  unfold createOrder. split.
  - intros Htaken. by rewrite bool_decide_eq_true_2.
  - intros w' Hrun.
    destruct (bool_decide_reflect (Order.id orderData ∈ Order.id <$> orders (db w)))
      as [|Hfresh]; [done|].
    destruct (bool_decide_reflect (Order.userId orderData ∉ Account.id <$> accounts (db w)))
      as [|Hacc]; [done|].
    apply dec_stable in Hacc.
    assert (∀ productId, Order.productId orderData = Some productId →
              productId ∈ Product.id <$> products (db w)) as Hprod.
    { intros productId Hp. rewrite Hp in Hrun.
      destruct (bool_decide_reflect (productId ∉ Product.id <$> products (db w)))
        as [|Hin]; [done|]. by apply dec_stable in Hin. }
    assert (w' = with_db (set_orders (λ l, l ++ [orderData])) w) as ->.
    { destruct (Order.productId orderData) as [productId|].
      - destruct (bool_decide (productId ∉ Product.id <$> products (db w)));
          by simplify_eq.
      - by simplify_eq. }
    cbn [db with_db set_orders orders accounts products].
    assert (∀ userId,
              filter (λ o, bool_decide (Order.id o = Order.id orderData)
                           && bool_decide (Order.userId o = userId) = true)
                (orders (db w)) = []) as Hnone.
    { intros userId. apply filter_none. intros o Ho Hcond.
      apply andb_prop in Hcond as [Hid _]. apply bool_decide_eq_true in Hid.
      apply Hfresh. apply list_elem_of_fmap. by exists o. }
    unfold getOrderById, sql_select_first, set_orders. cbn [orders].
    split; [|split; [|split; [|done]]].
    + intros _ _ _. rewrite filter_app, Hnone, app_nil_l.
      rewrite filter_cons_True; [done|].
      by rewrite !bool_decide_eq_true_2.
    + intros userId Hne. rewrite filter_app, Hnone, app_nil_l.
      rewrite filter_cons_False; [done|].
      rewrite (bool_decide_eq_false_2 (Order.userId orderData = userId)) by done.
      by rewrite andb_false_r.
    + intros orderId userId Hne. rewrite filter_app.
      rewrite (filter_cons_False _ orderData); [by rewrite filter_nil, app_nil_r|].
      by rewrite (bool_decide_eq_false_2 (Order.id orderData = orderId)).
Qed.

Lemma createOrder_round_trip_witness :
  let newOrder :=
    Order.mk "order-site-1700000009000" "100000000000004321" (Some "CH12345")
      (Some "Chave Misteriosa") "analise" 1700000009000 None None (Some []) in
  let w := quiet (shop (site_order "entregue" None (Some []))) ∅ 1700000009000 in
  getOrderById "order-site-1700000009000" "100000000000004321"
    (db (snd (createOrder newOrder w))) = Some newOrder.
Proof.
  intros newOrder w.
  destruct (createOrder_round_trip newOrder w) as [_ Hok].
  destruct (Hok (snd (createOrder newOrder w)) eq_refl) as (Hfound & _).
  apply Hfound; [reflexivity | reflexivity | by eexists].
Defined.

(** ** Links that lead to no transition *)





(** X21: ['deliver'] for a site order that is not found for the token's
    user answers a failure that names the order and changes nothing: no
    status is written, no message is stored or emitted, nobody is notified
    and no deletion is scheduled. *)
Theorem deliver_for_a_missing_order (env : Env) (w : World) (orderId userId : string)
    (productId productName : option string) :
  guilds_fetch env (GUILD_ID env) = true →
  getOrderById orderId userId (db w) = None →
  processVerificationAction env (Some "deliver")
    (SiteCtx orderId userId productId productName) w
  = (Ok {| success := false;
           message := "Pedido do site com ID " +:+ orderId +:+ " não encontrado." |}, w).
Proof.
  intros Hguild Hnone.
  assert (action_is (Some "deliver") "approve" = false) as Ha by reflexivity.
  assert (action_is (Some "deliver") "reject" = false) as Hr by reflexivity.
  assert (action_is (Some "deliver") "deliver" = true) as Hd by reflexivity.
  unfold processVerificationAction. rewrite Ha, Hr, Hd.
  run_discord. rewrite Hguild. cbn. by rewrite Hnone.
Qed.

Lemma deliver_for_a_missing_order_witness :
  success <$>
    (match fst (processVerificationAction (discord_up true) (Some "deliver")
                  (SiteCtx "order-site-1700000000000" "666000000000000666" None None)
                  (quiet (shop (site_order "approved" None (Some []))) ∅ 1700000010000))
     with Ok r => Some r | Throw _ => None end)
  = Some false.
Proof.
  by rewrite (deliver_for_a_missing_order (discord_up true)
                (quiet (shop (site_order "approved" None (Some []))) ∅ 1700000010000)
                "order-site-1700000000000" "666000000000000666" None None eq_refl eq_refl).
Defined.

(** ** Delivering and rejecting a ticket *)

(** X22: ['deliver'] for a ticket, with the guild and the buyer
    reachable. If the delivery channel is gone the delivery is confirmed
    all the same and nothing is scheduled. If it is there, the farewell
    is sent to it and its deletion is put on a timer 10000 ms ahead, never
    done at once; if that send fails, the whole action fails before
    anything is changed. The buyer's direct message may fail without
    consequence. No order, product or token is touched. *)
Theorem deliver_ticket (env : Env) (w : World) (channelId userId productId : string)
    (productName : option string) (u : DUser) :
  guilds_fetch env (GUILD_ID env) = true →
  users_fetch env userId = Some u →
  let out := processVerificationAction env (Some "deliver")
               (TicketCtx channelId userId productId productName) w in
  let dm := if user_send env (user_id u)
            then [DirectMessage (user_id u)
                    ("🎉 Sua compra do produto **" +:+ default "undefined" productName
                       +:+ "** foi concluída com sucesso! Obrigado por comprar conosco.")]
            else [] in
  orders (db (snd out)) = orders (db w)
  ∧ products (db (snd out)) = products (db w)
  ∧ verificationTokens (snd out) = verificationTokens w
  ∧ match channels_fetch env (Some channelId) with
    | None =>
        fst out = Ok {| success := true;
                        message := "Entrega para o ticket desconhecido confirmada." |}
        ∧ timers (snd out) = timers w
        ∧ discord (snd out) = discord w ++ dm
    | Some c =>
        if channel_send env (channel_id c) then
          fst out = Ok {| success := true;
                          message := "Entrega para o ticket "
                                       +:+ or_else (Some (channel_name c)) "desconhecido"
                                       +:+ " confirmada." |}
          ∧ timers (snd out)
            = timers w ++ [((now w + 10000)%Z,
                            DeleteChannel (channel_id c) "Entrega concluída.")]
          ∧ discord (snd out)
            = discord w
                ++ ChannelSend (channel_id c)
                     "✅ Entrega confirmada! Este canal será excluído em 10 segundos."
                :: dm
        else fst out = Throw (DiscordAPIError "channel.send") ∧ snd out = w
    end.
Proof.
  intros Hguild Hu out dm. subst out dm.
  assert (action_is (Some "deliver") "approve" = false) as Ha by reflexivity.
  assert (action_is (Some "deliver") "reject" = false) as Hr by reflexivity.
  assert (action_is (Some "deliver") "deliver" = true) as Hd by reflexivity.
  unfold processVerificationAction. rewrite Ha, Hr, Hd.
  run_discord. rewrite Hguild. cbn.
  destruct (channels_fetch env (Some channelId)) as [c|]; cbn;
    [destruct (channel_send env (channel_id c)); cbn|];
    rewrite ?Hu; cbn;
    try (destruct (user_send env (user_id u)); cbn);
    rewrite <- ?(assoc_L (++)), ?app_nil_r; repeat split; reflexivity.
Qed.

Lemma deliver_ticket_witness :
  let out := processVerificationAction (discord_up true) (Some "deliver")
               (TicketCtx "chan-entrega" "100000000000004321" "CH12345"
                  (Some "Chave Misteriosa"))
               (quiet (stocked_shop 2) ∅ 1700000011000) in
  timers (snd out) = [(1700000021000%Z, DeleteChannel "chan-entrega" "Entrega concluída.")]
  ∧ Product.stock <$> products (db (snd out)) = [2%Z].
Proof.
  intros out.
  destruct (deliver_ticket (discord_up true) (quiet (stocked_shop 2) ∅ 1700000011000)
              "chan-entrega" "100000000000004321" "CH12345" (Some "Chave Misteriosa")
              buyer_user eq_refl eq_refl) as (_ & Hprod & _ & Hcase).
  fold out in Hprod, Hcase. clearbody out. cbn in Hcase.
  destruct Hcase as (_ & Htimer & _).
  rewrite Hprod, Htimer. split; reflexivity.
Defined.

(** X23: ['reject'] for a ticket, with the guild reachable, tells the
    payment channel, if it still exists, that the proof was refused, and
    answers a success that names the channel; it writes no order and no
    product, takes no stock, and leaves the token map and the timers alone.
    If the channel exists but the send fails, the action fails with nothing
    changed. *)
Theorem reject_ticket (env : Env) (w : World) (channelId userId productId : string)
    (productName : option string) :
  guilds_fetch env (GUILD_ID env) = true →
  let out := processVerificationAction env (Some "reject")
               (TicketCtx channelId userId productId productName) w in
  orders (db (snd out)) = orders (db w)
  ∧ products (db (snd out)) = products (db w)
  ∧ verificationTokens (snd out) = verificationTokens w
  ∧ timers (snd out) = timers w
  ∧ match channels_fetch env (Some channelId) with
    | None =>
        fst out = Ok {| success := true;
                        message := "Pagamento RECUSADO para o canal desconhecido. O usuário foi notificado." |}
        ∧ discord (snd out) = discord w
    | Some c =>
        if channel_send env (channel_id c) then
          fst out = Ok {| success := true;
                          message := "Pagamento RECUSADO para o canal "
                                       +:+ or_else (Some (channel_name c)) "desconhecido"
                                       +:+ ". O usuário foi notificado." |}
          ∧ discord (snd out)
            = discord w ++ [ChannelSend (channel_id c)
                "❌ O seu comprovante foi analisado e **recusado**. Por favor, envie um comprovante válido ou entre em contato com o suporte."]
        else fst out = Throw (DiscordAPIError "channel.send") ∧ snd out = w
    end.
Proof.
  intros Hguild out. subst out.
  assert (action_is (Some "reject") "approve" = false) as Ha by reflexivity.
  assert (action_is (Some "reject") "reject" = true) as Hr by reflexivity.
  unfold processVerificationAction. rewrite Ha, Hr.
  run_discord. rewrite Hguild. cbn.
  destruct (channels_fetch env (Some channelId)) as [c|]; cbn;
    [destruct (channel_send env (channel_id c)); cbn|];
    repeat split; reflexivity.
Qed.

Lemma reject_ticket_witness :
  let out := processVerificationAction (discord_up true) (Some "reject")
               (TicketCtx "chan-pay" "100000000000004321" "CH12345" None)
               (quiet (stocked_shop 2) ∅ 1700000011000) in
  Product.stock <$> products (db (snd out)) = [2%Z] ∧ timers (snd out) = [].
Proof.
  intros out.
  destruct (reject_ticket (discord_up true) (quiet (stocked_shop 2) ∅ 1700000011000)
              "chan-pay" "100000000000004321" "CH12345" None eq_refl)
    as (_ & Hprod & _ & Htimer & _).
  fold out in Hprod, Htimer. rewrite Hprod, Htimer. split; reflexivity.
Defined.

(** ** From approval to delivery *)






(** ** The migration of the products *)

Lemma migrate_each_product_run (entries : list Product.t) (w : World) :
  fst (migrate_each_product entries w) = Ok tt
  ∧ products (db (snd (migrate_each_product entries w)))
    = foldl (λ rows p, upsert_product p rows) (products (db w)) entries
  ∧ orders (db (snd (migrate_each_product entries w))) = orders (db w)
  ∧ accounts (db (snd (migrate_each_product entries w))) = accounts (db w).
Proof.
  revert w. induction entries as [|p rest IH]; intros w; [done|].
  cbn [migrate_each_product foldl]. run_handler. cbn.
  match goal with |- context [migrate_each_product rest ?w1] =>
    destruct (IH w1) as (Hok & Hp & Ho & Ha);
    destruct (migrate_each_product rest w1) as [r w2] end.
  cbn in *. by subst.
Qed.

Lemma settle_product_id (entries : list Product.t) (r : Product.t) :
  Product.id (settle_product entries r) = Product.id r.
Proof.
  revert r. induction entries as [|e entries IH]; intros r; [done|].
  unfold settle_product in *. cbn [foldl]. rewrite IH. by case_bool_decide.
Qed.

Lemma settle_product_snoc (entries : list Product.t) (e r : Product.t) :
  settle_product (entries ++ [e]) r
  = if bool_decide (Product.id r = Product.id e) then e else settle_product entries r.
Proof.
  unfold settle_product. rewrite foldl_app. cbn [foldl].
  fold (settle_product entries r). by rewrite settle_product_id.
Qed.

Lemma upsert_product_ids (p : Product.t) (rows : list Product.t) :
  ∀ id, id ∈ Product.id <$> upsert_product p rows
        ↔ id ∈ Product.id <$> rows ∨ id = Product.id p.
Proof.
  intros id. unfold upsert_product. case_bool_decide as Hin.
  - rewrite <- list_fmap_compose.
    assert (Product.id ∘ (λ r, if bool_decide (Product.id r = Product.id p) then p else r)
            <$> rows = Product.id <$> rows) as ->.
    { apply list_fmap_ext. intros i r _. cbn. by case_bool_decide. }
    split; [by left|]. by intros [?| ->].
  - rewrite fmap_app, elem_of_app. cbn. by rewrite list_elem_of_singleton.
Qed.

(** On a table that has every id of the entries, the loop rewrites rows
    in place and adds none. *)
Lemma upsert_all_present (entries rows : list Product.t) :
  (∀ e, e ∈ entries → Product.id e ∈ Product.id <$> rows) →
  foldl (λ rows p, upsert_product p rows) rows entries
  = settle_product entries <$> rows.
Proof.
  revert rows. induction entries as [|e entries IH]; intros rows Hall.
  - cbn. by rewrite list_fmap_id.
  - cbn [foldl]. unfold upsert_product at 2.
    rewrite bool_decide_eq_true_2 by (apply Hall; left).
    rewrite IH.
    + rewrite <- list_fmap_compose. apply list_fmap_ext. by intros i r _.
    + intros e' He'. rewrite <- list_fmap_compose.
      assert (Product.id ∘ (λ r, if bool_decide (Product.id r = Product.id e) then e else r)
              <$> rows = Product.id <$> rows) as ->.
      { apply list_fmap_ext. intros i r _. cbn. by case_bool_decide. }
      apply Hall. by right.
Qed.

(** After the loop every entry's id is in the table, and every row is
    the value that the entries give it. *)
Lemma upsert_all_settled (entries rows : list Product.t) :
  let after := foldl (λ rows p, upsert_product p rows) rows entries in
  (∀ e, e ∈ entries → Product.id e ∈ Product.id <$> after)
  ∧ (∀ r, r ∈ after → settle_product entries r = r)
  ∧ (∀ r, r ∈ rows → Product.id r ∉ Product.id <$> entries → r ∈ after).
Proof.
  induction entries as [|e entries IH] using rev_ind; cbn zeta.
  - split; [by intros e He; apply elem_of_nil in He|]. split; [done|]. done.
  - rewrite foldl_app. cbn [foldl].
    set (S := foldl (λ rows p, upsert_product p rows) rows entries) in *.
    destruct IH as (Hids & Hfix & Hkeep).
    split; [|split].
    + intros e' He'. apply upsert_product_ids.
      apply elem_of_app in He' as [He'|He'].
      * left. by apply Hids.
      * right. by apply list_elem_of_singleton in He' as ->.
    + intros r Hr. rewrite settle_product_snoc. unfold upsert_product in Hr.
      case_bool_decide as Hin.
      * apply list_elem_of_fmap in Hr as (r0 & -> & Hr0).
        destruct (bool_decide_reflect (Product.id r0 = Product.id e)) as [Heq|Hne].
        -- by rewrite bool_decide_eq_true_2.
        -- rewrite bool_decide_eq_false_2 by done. by apply Hfix.
      * apply elem_of_app in Hr as [Hr|Hr].
        -- rewrite bool_decide_eq_false_2; [by apply Hfix|].
           intros Heq. apply Hin. rewrite <- Heq. by apply list_elem_of_fmap_2.
        -- apply list_elem_of_singleton in Hr as ->. by rewrite bool_decide_eq_true_2.
    + intros r Hr Hnot. rewrite fmap_app, not_elem_of_app in Hnot.
      destruct Hnot as [Hnot He]. cbn in He. rewrite list_elem_of_singleton in He.
      specialize (Hkeep r Hr Hnot). unfold upsert_product. case_bool_decide.
      * apply list_elem_of_fmap. exists r. by rewrite bool_decide_eq_false_2.
      * apply elem_of_app. by left.
Qed.

Lemma settle_product_unique (entries : list Product.t) (p r : Product.t) :
  NoDup (Product.id <$> entries) → p ∈ entries → Product.id r = Product.id p →
  settle_product entries r = p.
Proof.
  induction entries as [|e entries IH] using rev_ind; intros Hnodup Hp Hid.
  - by apply elem_of_nil in Hp.
  - rewrite settle_product_snoc. rewrite fmap_app in Hnodup.
    apply NoDup_app in Hnodup as (Hnd & Hdisj & _).
    apply elem_of_app in Hp as [Hp|Hp].
    + rewrite bool_decide_eq_false_2; [by apply IH|].
      intros Heq. apply (Hdisj (Product.id p)).
      * by apply list_elem_of_fmap_2.
      * cbn. apply list_elem_of_singleton. congruence.
    + apply list_elem_of_singleton in Hp as ->. by rewrite bool_decide_eq_true_2.
Qed.

(** X25: [migrateProducts] can be run again. It never fails; a second
    run over the same file leaves the products exactly as the first run
    left them; products that the file does not name are kept; when the
    file names each id once, each of its products is afterwards found
    under its id with the values of the file, whatever the table held for
    that id; accounts and orders are not touched. *)
Theorem migrateProducts_idempotent (entries : list Product.t) (w : World) :
  let once := snd (migrateProducts (Some entries) w) in
  let twice := snd (migrateProducts (Some entries) once) in
  fst (migrateProducts (Some entries) w) = Ok tt
  ∧ products (db twice) = products (db once)
  ∧ (∀ r, r ∈ products (db w) → Product.id r ∉ Product.id <$> entries →
          r ∈ products (db once))
  ∧ (NoDup (Product.id <$> entries) →
     ∀ p, p ∈ entries → getProductById (Product.id p) (db once) = Some p)
  ∧ orders (db once) = orders (db w)
  ∧ accounts (db once) = accounts (db w).
Proof.
  assert (∀ w0, fst (migrateProducts (Some entries) w0) = Ok tt
            ∧ products (db (snd (migrateProducts (Some entries) w0)))
              = foldl (λ rows p, upsert_product p rows) (products (db w0)) entries
            ∧ orders (db (snd (migrateProducts (Some entries) w0))) = orders (db w0)
            ∧ accounts (db (snd (migrateProducts (Some entries) w0))) = accounts (db w0))
    as Hrun.
  { intros w0. unfold migrateProducts. run_handler. cbn.
    match goal with |- context [migrate_each_product entries ?w1] =>
      destruct (migrate_each_product_run entries w1) as (Hok & Hp & Ho & Ha);
      destruct (migrate_each_product entries w1) as [r w2] end.
    cbn in *. by subst. }
  intros once twice. subst once twice.
  destruct (Hrun w) as (Hok & Hp & Ho & Ha).
  destruct (Hrun (snd (migrateProducts (Some entries) w))) as (_ & Hp2 & _).
  destruct (upsert_all_settled entries (products (db w))) as (Hids & Hfix & Hkeep).
  rewrite <- Hp in Hids, Hfix, Hkeep.
  split; [done|]. split; [|split; [done|split; [|done]]].
  - rewrite Hp2, upsert_all_present by done.
    rewrite <- (list_fmap_id (products (db (snd (migrateProducts (Some entries) w))))) at 2.
    apply list_fmap_ext. intros i r Hr. apply Hfix. by eapply list_elem_of_lookup_2.
  - intros Hnodup p Hp'. unfold getProductById, sql_select_first.
    specialize (Hids p Hp'). apply list_elem_of_fmap in Hids as (r & Hid & Hr).
    destruct (filter _ (products (db (snd (migrateProducts (Some entries) w)))))
      as [|x l] eqn:Hf.
    + exfalso. apply (filter_nil_not_elem_of _ _ r Hf); [|done].
      by rewrite bool_decide_eq_true_2.
    + assert (x ∈ filter (λ r0, bool_decide (Product.id r0 = Product.id p) = true)
                    (products (db (snd (migrateProducts (Some entries) w))))) as Hx.
      { rewrite Hf. left. }
      apply list_elem_of_filter in Hx as [Hxid Hx]. apply bool_decide_eq_true in Hxid.
      cbn. f_equal. rewrite <- (Hfix x Hx). by apply settle_product_unique.
Qed.

Lemma migrateProducts_idempotent_witness :
  let file := [Product.mk "CH12345" "Chave Misteriosa" 1990 None None 7;
               Product.mk "VI00001" "VIP" 500 None None (-1)] in
  let once := snd (migrateProducts (Some file)
                     (quiet (shop (site_order "analise" None None)) ∅ 0)) in
  getProductById "CH12345" (db once)
  = Some (Product.mk "CH12345" "Chave Misteriosa" 1990 None None 7).
Proof.
  intros file once.
  destruct (migrateProducts_idempotent file
              (quiet (shop (site_order "analise" None None)) ∅ 0))
    as (_ & _ & _ & Hfound & _).
  assert (NoDup (Product.id <$> file)) as Hnodup.
  { cbn. apply NoDup_cons. split; [by intros ?%list_elem_of_singleton|].
    apply NoDup_singleton. }
  apply (Hfound Hnodup (Product.mk "CH12345" "Chave Misteriosa" 1990 None None 7)).
  left.
Defined.

(** ** The migration of the accounts and their orders *)

Lemma items_run_app (xs ys : list LegacyItem) (d : Database) :
  items_run (xs ++ ys) d
  = if fst (items_run xs d) then items_run ys (snd (items_run xs d))
    else items_run xs d.
Proof.
  revert d. induction xs as [|x xs IH]; intros d; [done|].
  cbn [app items_run]. destruct (item_step x d) as [d'|]; [apply IH|done].
Qed.

Lemma migrate_each_order_items (rows : list Order.t) (w : World) :
  (is_ok (fst (migrate_each_order rows w)),
   db (snd (migrate_each_order rows w)))
  = items_run (ItemOrder <$> rows) (db w)
  ∧ (is_ok (fst (migrate_each_order rows w)) = true →
     fst (migrate_each_order rows w) = Ok tt).
Proof.
  revert w. induction rows as [|o rest IH]; intros w; [done|].
  cbn [migrate_each_order fmap list_fmap items_run item_step].
  run_handler. unfold insert_order_if_absent, effect.
  destruct (bool_decide (Order.id o ∈ Order.id <$> orders (db w))).
  { match goal with |- context [migrate_each_order rest ?w1] => exact (IH w1) end. }
  destruct (bool_decide (Order.userId o ∉ Account.id <$> accounts (db w))); [done|].
  destruct (match Order.productId o with
            | Some p => bool_decide (p ∉ Product.id <$> products (db w))
            | None => false
            end); [done|].
  match goal with |- context [migrate_each_order rest ?w1] => exact (IH w1) end.
Qed.

Lemma migrate_each_account_items (entries : list LegacyAccount) (w : World) :
  (is_ok (fst (migrate_each_account entries w)),
   db (snd (migrate_each_account entries w)))
  = items_run (legacy_items entries) (db w)
  ∧ (is_ok (fst (migrate_each_account entries w)) = true →
     fst (migrate_each_account entries w) = Ok tt).
Proof.
  revert w. induction entries as [|e rest IH]; intros w; [done|].
  unfold legacy_items. cbn [mbind list_bind]. fold (legacy_items rest).
  cbn [app items_run item_step]. rewrite items_run_app.
  cbn [migrate_each_account]. run_handler. unfold effect. cbv beta iota.
  match goal with |- context [migrate_each_order (legacy_orders e) ?w1] =>
    destruct (migrate_each_order_items (legacy_orders e) w1) as [Hrun Hok];
    destruct (migrate_each_order (legacy_orders e) w1) as [r w2] end.
  cbn [fst snd db with_db with_console] in Hrun, Hok. rewrite <- Hrun.
  cbn [fst snd]. destruct r as [[]|err]; cbn [is_ok]; [|done].
  match goal with |- context [migrate_each_account rest ?w1] => exact (IH w1) end.
Qed.

Lemma migrateAccountsAndOrders_items (entries : list LegacyAccount) (w : World) :
  fst (migrateAccountsAndOrders (Some entries) w) = Ok tt
  ∧ db (snd (migrateAccountsAndOrders (Some entries) w))
    = snd (items_run (legacy_items entries) (db w)).
Proof.
  unfold migrateAccountsAndOrders. run_handler. unfold effect. cbv beta iota.
  match goal with |- context [migrate_each_account entries ?w1] =>
    destruct (migrate_each_account_items entries w1) as [Hrun Hok];
    destruct (migrate_each_account entries w1) as [r w2] end.
  cbn [fst snd db with_db with_console] in Hrun, Hok. rewrite <- Hrun.
  destruct r as [[]|err]; done.
Qed.

Lemma item_step_present (x : LegacyItem) (d : Database) :
  item_present x d → item_step x d = Some d.
Proof.
  destruct x as [a|o]; cbn; intros Hin.
  - unfold insert_account_if_absent. by rewrite bool_decide_eq_true_2.
  - by rewrite bool_decide_eq_true_2.
Qed.

Lemma item_step_grows (x : LegacyItem) (d d' : Database) :
  item_step x d = Some d' →
  item_present x d'
  ∧ (∀ y, item_present y d → item_present y d')
  ∧ (∃ new, accounts d' = accounts d ++ new)
  ∧ (∃ new, orders d' = orders d ++ new)
  ∧ products d' = products d.
Proof.
  destruct x as [a|o]; cbn [item_step].
  - intros [= <-]. unfold insert_account_if_absent. case_bool_decide as Hin.
    + split; [done|]. split; [done|].
      split; [exists []; by rewrite app_nil_r|].
      split; [exists []; by rewrite app_nil_r|done].
    + split; [cbn; rewrite fmap_app, elem_of_app; right; left|].
      split; [intros [b|p] Hy; cbn in *; [rewrite fmap_app, elem_of_app; by left|done]|].
      split; [by exists [a]|]. split; [exists []; by rewrite app_nil_r|done].
  - case_bool_decide as Hin.
    + intros [= <-]. split; [done|]. split; [done|].
      split; [exists []; by rewrite app_nil_r|].
      split; [exists []; by rewrite app_nil_r|done].
    + destruct (bool_decide (Order.userId o ∉ Account.id <$> accounts d)); [done|].
      destruct (match Order.productId o with
                | Some p => bool_decide (p ∉ Product.id <$> products d)
                | None => false
                end); [done|].
      intros [= <-]. split; [cbn; rewrite fmap_app, elem_of_app; right; left|].
      split; [intros [b|p] Hy; cbn in *; [done|rewrite fmap_app, elem_of_app; by left]|].
      split; [exists []; by rewrite app_nil_r|]. split; [by exists [o]|done].
Qed.

Lemma items_run_grows (xs : list LegacyItem) (d : Database) :
  (∀ y, item_present y d → item_present y (snd (items_run xs d)))
  ∧ (∃ new, accounts (snd (items_run xs d)) = accounts d ++ new)
  ∧ (∃ new, orders (snd (items_run xs d)) = orders d ++ new)
  ∧ products (snd (items_run xs d)) = products d.
Proof.
  revert d. induction xs as [|x xs IH]; intros d; cbn [items_run].
  - split; [done|]. split; [exists []; by rewrite app_nil_r|].
    split; [exists []; by rewrite app_nil_r|done].
  - destruct (item_step x d) as [d'|] eqn:Hstep.
    + destruct (item_step_grows x d d' Hstep) as (_ & Hp & [na Ha] & [no Ho] & Hpr).
      destruct (IH d') as (Hp' & [na' Ha'] & [no' Ho'] & Hpr').
      split; [intros y Hy; by apply Hp', Hp|].
      split; [exists (na ++ na'); by rewrite Ha', Ha, app_assoc|].
      split; [exists (no ++ no'); by rewrite Ho', Ho, app_assoc|congruence].
    + split; [done|]. split; [exists []; by rewrite app_nil_r|].
      split; [exists []; by rewrite app_nil_r|done].
Qed.

(** A second pass over the same inserts does what the first did and
    leaves the tables as they are. *)
Lemma items_run_again (xs : list LegacyItem) (d : Database) :
  items_run xs (snd (items_run xs d)) = items_run xs d.
Proof.
  revert d. induction xs as [|x xs IH]; intros d; [done|].
  cbn [items_run]. destruct (item_step x d) as [d'|] eqn:Hstep.
  - destruct (item_step_grows x d d' Hstep) as (Hx & _).
    destruct (items_run_grows xs d') as (Hkeep & _).
    cbn [items_run]. rewrite item_step_present by by apply Hkeep.
    apply IH.
  - cbn [snd items_run]. by rewrite Hstep.
Qed.

(** X26: [migrateAccountsAndOrders] can be run again. It returns normally
    whatever the file holds and whatever the database refuses; a second run
    over the same file leaves every table as the first run left it; the
    accounts and orders that were in the tables are kept as they were, in
    place, with the new rows after them; products are not touched. *)
Theorem migrateAccountsAndOrders_idempotent
    (accountsData : option (list LegacyAccount)) (w : World) :
  let once := snd (migrateAccountsAndOrders accountsData w) in
  let twice := snd (migrateAccountsAndOrders accountsData once) in
  fst (migrateAccountsAndOrders accountsData w) = Ok tt
  ∧ db twice = db once
  ∧ (∃ new, accounts (db once) = accounts (db w) ++ new)
  ∧ (∃ new, orders (db once) = orders (db w) ++ new)
  ∧ products (db once) = products (db w).
Proof.
  destruct accountsData as [entries|]; cbn zeta.
  - destruct (migrateAccountsAndOrders_items entries w) as [Hok Hdb].
    destruct (migrateAccountsAndOrders_items entries
                (snd (migrateAccountsAndOrders (Some entries) w))) as [_ Hdb2].
    destruct (items_run_grows (legacy_items entries) (db w)) as (_ & Ha & Ho & Hp).
    rewrite Hdb2, Hdb, items_run_again.
    split; [done|]. split; [done|]. split; [done|]. by split.
  - split; [done|]. split; [done|].
    split; [exists []; by rewrite app_nil_r|].
    split; [exists []; by rewrite app_nil_r|done].
Qed.





(** ** The fixed shopping panel *)

(** X28: a panel that Discord no longer knows is forgotten. With a
    configuration row in place [updateFixedShoppingPanel] never throws
    and never touches products, accounts or orders; and once a refresh
    has ended with Unknown Message or Unknown Channel, every later call,
    whatever Discord would answer, does nothing at all: no Discord call,
    no log line, no write. *)
Theorem stale_panel_is_forgotten (env env' : Env) (cfg : PanelConfig) (w : World) :
  fixed_panel (db w) = Some cfg →
  let w1 := snd (updateFixedShoppingPanel env w) in
  fst (updateFixedShoppingPanel env w) = Ok tt
  ∧ products (db w1) = products (db w)
  ∧ accounts (db w1) = accounts (db w)
  ∧ orders (db w1) = orders (db w)
  ∧ (panel_refresh env = PanelUnknown →
     updateFixedShoppingPanel env' w1 = (Ok tt, w1)).
Proof.
  intros Hcfg. cbn zeta. unfold updateFixedShoppingPanel, logAuditEvent.
  run_handler. unfold effect. cbv beta iota. rewrite Hcfg.
  destruct (truthy (panelMessageId cfg) && truthy (panelChannelId cfg)) eqn:Hset.
  - destruct (panel_refresh env) eqn:Hrefresh; cbn [fst snd];
      (repeat (split; [done|])); done.
  - cbn [fst snd]. repeat (split; [done|]). intros _. by rewrite Hcfg, Hset.
Qed.

Lemma stale_panel_is_forgotten_witness :
  let cfg := {| panelMessageId := Some "111"; panelChannelId := Some "222" |} in
  let d := set_fixed_panel (Some cfg) (shop (site_order "analise" None None)) in
  let gone := {| GUILD_ID := "guild-1"; OWNER_ID := "900"; ADMIN_ROLE_ID := "role-adm";
                 SITE_URL := "https://loja.example";
                 guilds_fetch := λ _, true; users_fetch := λ _, None; user_send := λ _, false;
                 channels_fetch := λ _, None; channel_send := λ _, false;
                 channel_delete := λ _, false; channels_create := λ _, None;
                 panel_refresh := PanelUnknown; randomBytes := λ _, "00" |} in
  let w1 := snd (updateFixedShoppingPanel gone (quiet d ∅ 0)) in
  fixed_panel (db w1) = Some {| panelMessageId := None; panelChannelId := None |}
  ∧ updateFixedShoppingPanel (discord_up true) w1 = (Ok tt, w1).
Proof.
  intros cfg d gone w1. split; [reflexivity|].
  by apply (stale_panel_is_forgotten gone (discord_up true) cfg (quiet d ∅ 0)).
Defined.
